(** * Receipt API (app/main.py): a shallow embedding and its properties

    The service of [app/main.py] has three stateful endpoints:
    [health_check], [upload_receipt] and [get_receipt].  They share a global
    connection pool ([db_pool], [None] when the database could not be
    reached at start-up), talk to a PostgreSQL database through it and read
    the wall clock.  The embedding below keeps that shape: a [World] record
    holds the pool, the database tables, the wall clock and the schedule of
    faults the database driver is going to raise, and every endpoint is a
    computation in a state-and-exception monad over [World].

    Console output ([print]) is not part of the model. *)

From Stdlib Require Import List ZArith NArith QArith Lia Bool String Ascii Arith.
Import ListNotations.
Close Scope Q_scope.

(** ** Python strings

    A Python [str] is a sequence of Unicode code points; slicing and [len]
    count code points.  String literals of the source are written as they
    are in the source and decoded from their UTF-8 bytes. *)

Module PyStr.

Definition codepoint := N.
Definition pystr := list codepoint.

Fixpoint utf8_decode (bs : list N) : pystr :=
  match bs with
  | [] => []
  | b0 :: rest =>
      if (b0 <? 128)%N then b0 :: utf8_decode rest
      else if (b0 <? 224)%N then
        match rest with
        | b1 :: rest1 =>
            ((b0 mod 32) * 64 + b1 mod 64)%N :: utf8_decode rest1
        | [] => [b0]
        end
      else if (b0 <? 240)%N then
        match rest with
        | b1 :: b2 :: rest2 =>
            ((b0 mod 16) * 4096 + (b1 mod 64) * 64 + b2 mod 64)%N
              :: utf8_decode rest2
        | _ => [b0]
        end
      else
        match rest with
        | b1 :: b2 :: b3 :: rest3 =>
            ((b0 mod 8) * 262144 + (b1 mod 64) * 4096
             + (b2 mod 64) * 64 + b3 mod 64)%N
              :: utf8_decode rest3
        | _ => [b0]
        end
  end.

Definition bytes_of_string (s : string) : list N :=
  map N_of_ascii (list_ascii_of_string s).

(** [lit "..."] is the Python literal ["..."]. *)
Definition lit (s : string) : pystr := utf8_decode (bytes_of_string s).

Fixpoint eqb (s t : pystr) : bool :=
  match s, t with
  | [], [] => true
  | c :: s', d :: t' => N.eqb c d && eqb s' t'
  | _, _ => false
  end.

(** [s.startswith(prefix)] *)
Fixpoint startswith (s prefix : pystr) : bool :=
  match prefix with
  | [] => true
  | p :: prefix' =>
      match s with
      | [] => false
      | c :: s' => N.eqb c p && startswith s' prefix'
      end
  end.

(** [s[:n]] *)
Definition slice_to (n : nat) (s : pystr) : pystr := firstn n s.

(** The decimal digit [d] (for [0 <= d < 10]) as a character. *)
Definition digit (d : Z) : codepoint := Z.to_N (48 + d).

Definition is_digit (c : codepoint) : bool :=
  ((48 <=? c) && (c <=? 57))%N.

(** Zero-padded decimal fields ([%02d], [%04d], [%06d]) of a number that
    fits the field, which every field of a [datetime] does. *)
Definition pad2 (n : Z) : pystr :=
  [digit (n / 10 mod 10); digit (n mod 10)]%Z.

Definition pad4 (n : Z) : pystr :=
  [digit (n / 1000 mod 10); digit (n / 100 mod 10);
   digit (n / 10 mod 10); digit (n mod 10)]%Z.

Definition pad6 (n : Z) : pystr :=
  [digit (n / 100000 mod 10); digit (n / 10000 mod 10);
   digit (n / 1000 mod 10); digit (n / 100 mod 10);
   digit (n / 10 mod 10); digit (n mod 10)]%Z.

End PyStr.
Import PyStr.

(** ** Dates and times

    [datetime.now()] returns a [datetime]; the source formats it with
    [strftime], [isoformat], and takes its [date()]. *)

Record pydate := { d_year : Z; d_month : Z; d_day : Z }.

Record datetime := {
  year : Z; month : Z; day : Z;
  hour : Z; minute : Z; second : Z; microsecond : Z
}.

(** [dt.date()] *)
Definition date_of (dt : datetime) : pydate :=
  {| d_year := year dt; d_month := month dt; d_day := day dt |}.

Definition is_leap (y : Z) : bool :=
  ((y mod 4 =? 0) && (negb (y mod 100 =? 0) || (y mod 400 =? 0)))%Z.

Definition days_in_month (y m : Z) : Z :=
  if (m =? 2)%Z then (if is_leap y then 29 else 28)
  else if ((m =? 4) || (m =? 6) || (m =? 9) || (m =? 11))%Z then 30
  else 31.

(** The values a Python [datetime] can hold (MINYEAR = 1, MAXYEAR = 9999). *)
Definition valid_datetime (dt : datetime) : bool :=
  ((1 <=? year dt) && (year dt <=? 9999)
   && (1 <=? month dt) && (month dt <=? 12)
   && (1 <=? day dt) && (day dt <=? days_in_month (year dt) (month dt))
   && (0 <=? hour dt) && (hour dt <=? 23)
   && (0 <=? minute dt) && (minute dt <=? 59)
   && (0 <=? second dt) && (second dt <=? 59)
   && (0 <=? microsecond dt) && (microsecond dt <=? 999999))%Z.

(** A reading of the wall clock: a valid [datetime] whose year has four
    digits.  ([%Y] is printed with four digits below; C libraries differ on
    the padding of years before 1000, and agree from 1000 on.) *)
Definition clock_reading (dt : datetime) : bool :=
  valid_datetime dt && (1000 <=? year dt)%Z.

(** One [strftime] directive; the source uses [%Y %m %d %H %M %S]. *)
Definition directive (dt : datetime) (d : codepoint) : pystr :=
  if (d =? 89)%N then pad4 (year dt)            (* %Y *)
  else if (d =? 109)%N then pad2 (month dt)     (* %m *)
  else if (d =? 100)%N then pad2 (day dt)       (* %d *)
  else if (d =? 72)%N then pad2 (hour dt)       (* %H *)
  else if (d =? 77)%N then pad2 (minute dt)     (* %M *)
  else if (d =? 83)%N then pad2 (second dt)     (* %S *)
  else [37%N; d].

(** [dt.strftime(fmt)] *)
Fixpoint strftime (dt : datetime) (fmt : pystr) : pystr :=
  match fmt with
  | [] => []
  | c :: rest =>
      if (c =? 37)%N then
        match rest with
        | d :: rest' => directive dt d ++ strftime dt rest'
        | [] => [c]
        end
      else c :: strftime dt rest
  end.

(** [d.isoformat()] for a [date]: YYYY-MM-DD. *)
Definition date_isoformat (d : pydate) : pystr :=
  pad4 (d_year d) ++ lit "-" ++ pad2 (d_month d) ++ lit "-" ++ pad2 (d_day d).

(** [dt.isoformat()] for a [datetime]: the fraction is printed only when
    the microsecond field is not zero. *)
Definition datetime_isoformat (dt : datetime) : pystr :=
  date_isoformat (date_of dt) ++ lit "T"
  ++ pad2 (hour dt) ++ lit ":" ++ pad2 (minute dt) ++ lit ":"
  ++ pad2 (second dt)
  ++ (if (microsecond dt =? 0)%Z then [] else lit "." ++ pad6 (microsecond dt)).

(** ** The database

    Two tables, rows in insertion order. *)

Record ReceiptRow := {
  row_receipt_id : pystr;
  row_merchant_name : pystr;
  row_total_amount : Q;
  row_receipt_date : pydate;
  row_image_url : pystr;
  row_status : pystr
}.

Record ItemRow := {
  item_receipt_id : pystr;
  item_name : pystr;
  item_quantity : Z;
  item_price : Q
}.

Record Database := {
  receipts : list ReceiptRow;
  receipt_items : list ItemRow
}.

Definition empty_database : Database :=
  {| receipts := []; receipt_items := [] |}.

(** [SELECT ... FROM receipts WHERE receipt_id = $1], first row. *)
Definition select_receipt (id : pystr) (db : Database) : option ReceiptRow :=
  find (fun r => PyStr.eqb (row_receipt_id r) id) (receipts db).

(** [SELECT ... FROM receipt_items WHERE receipt_id = $1] *)
Definition select_items (id : pystr) (db : Database) : list ItemRow :=
  filter (fun i => PyStr.eqb (item_receipt_id i) id) (receipt_items db).

(** Modelled from the spec: the table declarations of [receipts] and
    [receipt_items] are not part of the source file.  The spec's data model
    makes the receipt identifier the identity of a receipt (unique) and
    has every line item refer to an existing receipt (foreign key); an
    insert that would break either is refused by the database. *)
Definition unique_violation (r : ReceiptRow) (db : Database) : bool :=
  existsb (fun r' => PyStr.eqb (row_receipt_id r') (row_receipt_id r))
          (receipts db).

(** Modelled from the spec: the foreign key of [receipt_items], under the
    same reading of the data model. *)
Definition foreign_key_violation (i : ItemRow) (db : Database) : bool :=
  negb (existsb (fun r => PyStr.eqb (row_receipt_id r) (item_receipt_id i))
                (receipts db)).

Definition add_receipt (r : ReceiptRow) (db : Database) : Database :=
  {| receipts := receipts db ++ [r]; receipt_items := receipt_items db |}.

Definition add_item (i : ItemRow) (db : Database) : Database :=
  {| receipts := receipts db; receipt_items := receipt_items db ++ [i] |}.

(** What the schema guarantees of every database state. *)
Definition db_consistent (db : Database) : Prop :=
  NoDup (map row_receipt_id (receipts db))
  /\ forall i, In i (receipt_items db) ->
       In (item_receipt_id i) (map row_receipt_id (receipts db)).

(** ** The world of the service *)

Inductive Pool : Set := ConnectionPool.
Inductive Connection : Set := PooledConnection.

Record World := {
  db_pool : option Pool;            (* the global [db_pool] *)
  database : Database;              (* the PostgreSQL tables *)
  faults : list (option pystr);     (* outcome of the next driver calls:
                                       [Some msg] raises an exception whose
                                       text is [msg]; past the end, none *)
  clock : nat -> datetime;          (* successive readings of the clock *)
  ticks : nat                       (* readings taken so far *)
}.

Definition set_faults (fs : list (option pystr)) (w : World) : World :=
  {| db_pool := db_pool w; database := database w; faults := fs;
     clock := clock w; ticks := ticks w |}.

Definition set_database (db : Database) (w : World) : World :=
  {| db_pool := db_pool w; database := db; faults := faults w;
     clock := clock w; ticks := ticks w |}.

Definition set_pool (p : option Pool) (w : World) : World :=
  {| db_pool := p; database := database w; faults := faults w;
     clock := clock w; ticks := ticks w |}.

Definition tick (w : World) : World :=
  {| db_pool := db_pool w; database := database w; faults := faults w;
     clock := clock w; ticks := S (ticks w) |}.

(** ** Exceptions and the monad of endpoint code *)

Inductive exn :=
| HTTPException (status_code : Z) (detail : pystr)
| DriverError (text : pystr)
| AttributeError (text : pystr).

Inductive outcome (A : Type) :=
| Return (a : A)
| Raise (e : exn).
Arguments Return {A} a.
Arguments Raise {A} e.

Definition M (A : Type) : Type := World -> outcome A * World.

Definition ret {A} (a : A) : M A := fun w => (Return a, w).

Definition raise {A} (e : exn) : M A := fun w => (Raise e, w).

Definition bind {A B} (m : M A) (k : A -> M B) : M B :=
  fun w =>
    match m w with
    | (Return a, w') => k a w'
    | (Raise e, w') => (Raise e, w')
    end.

Notation "x <- m ;; k" := (bind m (fun x => k))
  (at level 61, m at next level, right associativity).
Notation "m ;;; k" := (bind m (fun _ => k))
  (at level 61, right associativity).

(** [try: m  except Exception as e: handler e] *)
Definition try_except {A} (m : M A) (handler : exn -> M A) : M A :=
  fun w =>
    match m w with
    | (Return a, w') => (Return a, w')
    | (Raise e, w') => handler e w'
    end.

(** [for x in xs: body x] *)
Fixpoint for_each {A} (xs : list A) (body : A -> M unit) : M unit :=
  match xs with
  | [] => ret tt
  | x :: xs' => body x ;;; for_each xs' body
  end.

(** [str(e)]; an [HTTPException] prints as its status code, a colon and
    its detail. *)
Definition str_exn (e : exn) : pystr :=
  match e with
  | DriverError text => text
  | AttributeError text => text
  | HTTPException code detail =>
      [digit (code / 100 mod 10); digit (code / 10 mod 10);
       digit (code mod 10)]%Z ++ lit ": " ++ detail
  end.

(** [datetime.now()] *)
Definition datetime_now : M datetime :=
  fun w => (Return (clock w (ticks w)), tick w).

Definition get_db_pool : M (option Pool) := fun w => (Return (db_pool w), w).

(** Every call into the driver takes the next scheduled outcome. *)
Definition driver_call : M unit :=
  fun w =>
    (match hd None (faults w) with
     | None => Return tt
     | Some text => Raise (DriverError text)
     end,
     set_faults (tl (faults w)) w).

(** [asyncpg.create_pool(...)] *)
Definition create_pool : M Pool := driver_call ;;; ret ConnectionPool.

(** [pool.acquire()] entered and left by [async with]. *)
Definition acquire (p : Pool) : M Connection :=
  driver_call ;;; ret PooledConnection.

Definition release (p : Pool) (c : Connection) : M unit := driver_call.

(** [async with pool.acquire() as conn: body conn]: the connection is
    released however the body ends, and an exception of the release
    replaces the body's result. *)
Definition with_acquire {A} (p : Pool) (body : Connection -> M A) : M A :=
  fun w =>
    match acquire p w with
    | (Raise e, w1) => (Raise e, w1)
    | (Return conn, w1) =>
        let (r, w2) := body conn w1 in
        match release p conn w2 with
        | (Raise e, w3) => (Raise e, w3)
        | (Return _, w3) => (r, w3)
        end
    end.

(** [conn.execute("INSERT INTO receipts ...")]: no transaction is open, so
    the statement is committed when it returns. *)
Definition execute_insert_receipt (c : Connection) (r : ReceiptRow) : M unit :=
  driver_call ;;;
  fun w =>
    if unique_violation r (database w)
    then (Raise (DriverError (lit "duplicate key value violates unique constraint")), w)
    else (Return tt, set_database (add_receipt r (database w)) w).

(** [conn.execute("INSERT INTO receipt_items ...")] *)
Definition execute_insert_item (c : Connection) (i : ItemRow) : M unit :=
  driver_call ;;;
  fun w =>
    if foreign_key_violation i (database w)
    then (Raise (DriverError (lit "insert or update on table violates foreign key constraint")), w)
    else (Return tt, set_database (add_item i (database w)) w).

(** [conn.fetchrow("SELECT ... FROM receipts WHERE receipt_id = $1", id)] *)
Definition fetchrow_receipt (c : Connection) (id : pystr)
  : M (option ReceiptRow) :=
  driver_call ;;; fun w => (Return (select_receipt id (database w)), w).

(** [conn.fetch("SELECT ... FROM receipt_items WHERE receipt_id = $1", id)] *)
Definition fetch_items (c : Connection) (id : pystr) : M (list ItemRow) :=
  driver_call ;;; fun w => (Return (select_items id (database w)), w).

(** [conn.fetchval("SELECT 1")] *)
Definition fetchval_select_1 (c : Connection) : M Z :=
  driver_call ;;; ret 1%Z.

(** ** Start-up: [lifespan] *)

Definition lifespan_startup : M unit :=
  fun w =>
    match create_pool w with
    | (Return p, w') => (Return tt, set_pool (Some p) w')
    | (Raise _, w') => (Return tt, set_pool None w')
    end.

(** ** Requests and responses *)

(** An uploaded file: its name, its declared media type and its bytes.
    Name and media type come from the headers of the multipart part and
    are [None] when the part does not give them. *)
Record UploadFile := {
  filename : option pystr;
  content_type : option pystr;
  content : list N
}.

Module ReceiptResponse.
Record t := {
  receipt_id : pystr;
  merchant_name : pystr;
  total_amount : Q;
  date : pystr;
  status : pystr;
  message : pystr
}.
End ReceiptResponse.

Module HealthResponse.
Record t := {
  status : pystr;
  timestamp : pystr;
  database : pystr;
  version : pystr
}.
End HealthResponse.

(** The dictionary returned by [get_receipt]. *)
Module ReceiptDetail.
Record item := {
  name : pystr;
  quantity : Z;
  price : Q
}.
Record t := {
  receipt_id : pystr;
  merchant_name : pystr;
  total_amount : Q;
  date : pystr;
  status : pystr;
  items : list item
}.
End ReceiptDetail.

(** ** GET /health *)

Definition health_check : M HealthResponse.t :=
  pool <- get_db_pool ;;
  db_status <-
    match pool with
    | Some p =>
        try_except
          (with_acquire p (fun conn =>
             fetchval_select_1 conn ;;;
             ret (lit "connected")))
          (fun e => ret (lit "error: " ++ slice_to 50 (str_exn e)))
    | None => ret (lit "not configured")
    end ;;
  now <- datetime_now ;;
  ret {| HealthResponse.status :=
           if PyStr.eqb db_status (lit "connected")
           then lit "healthy" else lit "degraded";
         HealthResponse.timestamp := datetime_isoformat now;
         HealthResponse.database := db_status;
         HealthResponse.version := lit "1.0.0" |}.

(** ** POST /api/receipts *)

(** The item list of the source (name, quantity, price). *)
Definition items : list (pystr * Z * Q) :=
  [ (lit "아메리카노", 2%Z, 4500.0%Q);
    (lit "샌드위치", 1%Z, 6000.0%Q) ].

Definition upload_receipt (file : UploadFile) : M ReceiptResponse.t :=
  match content_type file with
  | None =>
      (* [None.startswith]: no such attribute *)
      raise (AttributeError
               (lit "'NoneType' object has no attribute 'startswith'"))
  | Some content_type =>
    if negb (startswith content_type (lit "image/")) then
      raise (HTTPException 400 (lit "이미지 파일만 업로드 가능합니다"))
    else
      now1 <- datetime_now ;;
      let receipt_id := lit "RCP-" ++ strftime now1 (lit "%Y%m%d-%H%M%S") in
      let merchant_name := lit "스타벅스 강남점" in
      let total_amount := 15000.0%Q in
      now2 <- datetime_now ;;
      let receipt_date := date_of now2 in
      pool <- get_db_pool ;;
      message <-
        match pool with
        | Some p =>
            try_except
              (with_acquire p (fun conn =>
                 execute_insert_receipt conn
                   {| row_receipt_id := receipt_id;
                      row_merchant_name := merchant_name;
                      row_total_amount := total_amount;
                      row_receipt_date := receipt_date;
                      row_image_url :=
                        lit "s3://receipts/" ++ receipt_id ++ lit ".jpg";
                      row_status := lit "processed" |} ;;;
                 for_each items (fun '(item_name, quantity, price) =>
                   execute_insert_item conn
                     {| item_receipt_id := receipt_id;
                        item_name := item_name;
                        item_quantity := quantity;
                        item_price := price |}) ;;;
                 ret (lit "영수증이 성공적으로 분석되고 저장되었습니다")))
              (fun e => ret (lit "영수증이 분석되었으나 저장 실패 (DB 오류)"))
        | None => ret (lit "영수증이 분석되었습니다 (더미 모드 - DB 미연결)")
        end ;;
      ret {| ReceiptResponse.receipt_id := receipt_id;
             ReceiptResponse.merchant_name := merchant_name;
             ReceiptResponse.total_amount := total_amount;
             ReceiptResponse.date := date_isoformat receipt_date;
             ReceiptResponse.status := lit "processed";
             ReceiptResponse.message := message |}
  end.

(** ** GET /api/receipts/{receipt_id} *)

(** [float(x)] of a stored amount.  Amounts are kept as exact decimals
    ([15000.0] is the number the source writes); the amounts of this
    service have an exact floating-point value, so storing and reading one
    back returns it. *)
Definition float (x : Q) : Q := x.

Definition get_receipt (receipt_id : pystr) : M ReceiptDetail.t :=
  pool <- get_db_pool ;;
  found <-
    match pool with
    | Some p =>
        try_except
          (with_acquire p (fun conn =>
             receipt <- fetchrow_receipt conn receipt_id ;;
             match receipt with
             | None =>
                 raise (HTTPException 404 (lit "영수증을 찾을 수 없습니다"))
             | Some receipt =>
                 items <- fetch_items conn receipt_id ;;
                 ret (Some
                   {| ReceiptDetail.receipt_id := row_receipt_id receipt;
                      ReceiptDetail.merchant_name := row_merchant_name receipt;
                      ReceiptDetail.total_amount :=
                        float (row_total_amount receipt);
                      ReceiptDetail.date :=
                        date_isoformat (row_receipt_date receipt);
                      ReceiptDetail.status := row_status receipt;
                      ReceiptDetail.items :=
                        map (fun item =>
                               {| ReceiptDetail.name := item_name item;
                                  ReceiptDetail.quantity := item_quantity item;
                                  ReceiptDetail.price :=
                                    float (item_price item) |})
                            items |})
             end))
          (fun e =>
             match e with
             | HTTPException _ _ => raise e
             | _ => ret None
             end)
    | None => ret None
    end ;;
  match found with
  | Some detail => ret detail
  | None =>
      now <- datetime_now ;;
      ret {| ReceiptDetail.receipt_id := receipt_id;
             ReceiptDetail.merchant_name := lit "스타벅스 강남점 (더미)";
             ReceiptDetail.total_amount := 15000.0%Q;
             ReceiptDetail.date := strftime now (lit "%Y-%m-%d");
             ReceiptDetail.status := lit "processed";
             ReceiptDetail.items :=
               [ {| ReceiptDetail.name := lit "아메리카노";
                    ReceiptDetail.quantity := 2;
                    ReceiptDetail.price := 4500%Q |};
                 {| ReceiptDetail.name := lit "샌드위치";
                    ReceiptDetail.quantity := 1;
                    ReceiptDetail.price := 6000%Q |} ] |}
  end.

(** ** Notions used by the statements *)

(** The outcome scheduled for the [k]-th next driver call. *)
Definition fault (k : nat) (w : World) : option pystr :=
  hd None (Nat.iter k (@tl (option pystr)) (faults w)).

(** A request is an image upload when its content type passes the check of
    [upload_receipt]. *)
Definition is_image (file : UploadFile) : bool :=
  match content_type file with
  | Some content_type => startswith content_type (lit "image/")
  | None => false
  end.

(** The values [upload_receipt] computes from its two clock readings. *)
Definition new_receipt_id (now : datetime) : pystr :=
  lit "RCP-" ++ strftime now (lit "%Y%m%d-%H%M%S").

Definition new_receipt_row (now1 now2 : datetime) : ReceiptRow :=
  {| row_receipt_id := new_receipt_id now1;
     row_merchant_name := lit "스타벅스 강남점";
     row_total_amount := 15000.0%Q;
     row_receipt_date := date_of now2;
     row_image_url := lit "s3://receipts/" ++ new_receipt_id now1 ++ lit ".jpg";
     row_status := lit "processed" |}.

Definition new_item_rows (now1 : datetime) : list ItemRow :=
  map (fun '(item_name, quantity, price) =>
         {| item_receipt_id := new_receipt_id now1;
            item_name := item_name;
            item_quantity := quantity;
            item_price := price |}) items.

Definition add_items (rows : list ItemRow) (db : Database) : Database :=
  fold_left (fun db i => add_item i db) rows db.

(** The three messages of [upload_receipt]. *)
Definition msg_saved : pystr := lit "영수증이 성공적으로 분석되고 저장되었습니다".
Definition msg_save_failed : pystr := lit "영수증이 분석되었으나 저장 실패 (DB 오류)".
Definition msg_dummy_mode : pystr :=
  lit "영수증이 분석되었습니다 (더미 모드 - DB 미연결)".

(** [take_digits n s] reads [n] decimal digits off the front of [s]. *)
Fixpoint take_digits (n : nat) (s : pystr) : option pystr :=
  match n with
  | O => Some s
  | S n' =>
      match s with
      | c :: s' => if is_digit c then take_digits n' s' else None
      | [] => None
      end
  end.

(** The shape RCP-YYYYMMDD-HHMMSS. *)
Definition is_receipt_id_format (s : pystr) : bool :=
  startswith s (lit "RCP-")
  && match take_digits 8 (skipn 4 s) with
     | Some (c :: rest) =>
         (c =? 45)%N
         && match take_digits 6 rest with
            | Some [] => true
            | _ => false
            end
     | _ => false
     end.

(** A clock reading cut to second precision. *)
Definition to_second (dt : datetime) : Z * Z * Z * Z * Z * Z :=
  (year dt, month dt, day dt, hour dt, minute dt, second dt).

(** The placeholder [get_receipt] answers with when it cannot read the
    database. *)
Definition dummy_detail (receipt_id : pystr) (now : datetime)
  : ReceiptDetail.t :=
  {| ReceiptDetail.receipt_id := receipt_id;
     ReceiptDetail.merchant_name := lit "스타벅스 강남점 (더미)";
     ReceiptDetail.total_amount := 15000.0%Q;
     ReceiptDetail.date := strftime now (lit "%Y-%m-%d");
     ReceiptDetail.status := lit "processed";
     ReceiptDetail.items :=
       [ {| ReceiptDetail.name := lit "아메리카노";
            ReceiptDetail.quantity := 2;
            ReceiptDetail.price := 4500%Q |};
         {| ReceiptDetail.name := lit "샌드위치";
            ReceiptDetail.quantity := 1;
            ReceiptDetail.price := 6000%Q |} ] |}.

(** What [get_receipt] builds from a stored receipt and its items. *)
Definition detail_of_rows (r : ReceiptRow) (rows : list ItemRow)
  : ReceiptDetail.t :=
  {| ReceiptDetail.receipt_id := row_receipt_id r;
     ReceiptDetail.merchant_name := row_merchant_name r;
     ReceiptDetail.total_amount := float (row_total_amount r);
     ReceiptDetail.date := date_isoformat (row_receipt_date r);
     ReceiptDetail.status := row_status r;
     ReceiptDetail.items :=
       map (fun item =>
              {| ReceiptDetail.name := item_name item;
                 ReceiptDetail.quantity := item_quantity item;
                 ReceiptDetail.price := float (item_price item) |})
           rows |}.

Definition not_found : exn :=
  HTTPException 404 (lit "영수증을 찾을 수 없습니다").

Definition invalid_input : exn :=
  HTTPException 400 (lit "이미지 파일만 업로드 가능합니다").

(** What [None.startswith] raises in [upload_receipt]; nothing catches it,
    so the caller gets status 500. *)
Definition missing_content_type : exn :=
  AttributeError (lit "'NoneType' object has no attribute 'startswith'").

(** The exception an upload that is not accepted leaves with. *)
Definition refusal (file : UploadFile) : exn :=
  match content_type file with
  | None => missing_content_type
  | Some _ => invalid_input
  end.

(** A run of several uploads, one after the other. *)
Fixpoint intakes (files : list UploadFile) : M (list ReceiptResponse.t) :=
  match files with
  | [] => ret []
  | f :: fs =>
      r <- upload_receipt f ;;
      rs <- intakes fs ;;
      ret (r :: rs)
  end.

(** The world reached from [w] after [k] driver calls and [t] clock
    readings, with tables [db]: every run of an endpoint ends in one. *)
Definition reached (db : Database) (k t : nat) (w : World) : World :=
  {| db_pool := db_pool w; database := db;
     faults := Nat.iter k (@tl (option pystr)) (faults w);
     clock := clock w; ticks := t + ticks w |}.

(** The database-write block of [upload_receipt], for any receipt row and
    item rows. *)
Definition save_block (p : Pool) (r : ReceiptRow) (rows : list ItemRow)
  : M pystr :=
  with_acquire p (fun conn =>
    execute_insert_receipt conn r ;;;
    for_each rows (execute_insert_item conn) ;;;
    ret msg_saved).

(** The database-read block of [get_receipt]. *)
Definition fetch_block (p : Pool) (receipt_id : pystr)
  : M (option ReceiptDetail.t) :=
  with_acquire p (fun conn =>
    receipt <- fetchrow_receipt conn receipt_id ;;
    match receipt with
    | None => raise not_found
    | Some receipt =>
        rows <- fetch_items conn receipt_id ;;
        ret (Some (detail_of_rows receipt rows))
    end).

(** The probe of [health_check]: the body of its [try]. *)
Definition probe (p : Pool) : M pystr :=
  with_acquire p (fun conn =>
    fetchval_select_1 conn ;;;
    ret (lit "connected")).

(** The response of [upload_receipt] for given clock readings and message. *)
Definition response (now1 now2 : datetime) (message : pystr)
  : ReceiptResponse.t :=
  {| ReceiptResponse.receipt_id := new_receipt_id now1;
     ReceiptResponse.merchant_name := lit "스타벅스 강남점";
     ReceiptResponse.total_amount := 15000.0%Q;
     ReceiptResponse.date := date_isoformat (date_of now2);
     ReceiptResponse.status := lit "processed";
     ReceiptResponse.message := message |}.

(** The response of [health_check] for a database status and a clock
    reading. *)
Definition health_response (db_status : pystr) (now : datetime)
  : HealthResponse.t :=
  {| HealthResponse.status :=
       if PyStr.eqb db_status (lit "connected")
       then lit "healthy" else lit "degraded";
     HealthResponse.timestamp := datetime_isoformat now;
     HealthResponse.database := db_status;
     HealthResponse.version := lit "1.0.0" |}.

(** [get_receipt] is in degraded mode when there is no pool or its read
    block ends with an exception of the driver. *)
Definition degraded (receipt_id : pystr) (w : World) : Prop :=
  db_pool w = None
  \/ exists p text w1,
       db_pool w = Some p
       /\ fetch_block p receipt_id w = (Raise (DriverError text), w1).

(** The items of a response as [get_receipt] lists stored items. *)
Definition items_as_listed : list ReceiptDetail.item :=
  map (fun '(item_name, quantity, price) =>
         {| ReceiptDetail.name := item_name;
            ReceiptDetail.quantity := quantity;
            ReceiptDetail.price := float price |}) items.

(** A computation keeps the schema's guarantees. *)
Definition preserves {A} (m : M A) : Prop :=
  forall w r w',
    db_consistent (database w) -> m w = (r, w') ->
    db_consistent (database w').

(** The worlds the service can be in: started on an empty database, then
    any sequence of uploads and reads, under any schedule of faults. *)
Inductive reachable : World -> Prop :=
| reachable_start pool fs clk n :
    reachable {| db_pool := pool; database := empty_database; faults := fs;
                 clock := clk; ticks := n |}
| reachable_upload file w :
    reachable w -> reachable (snd (upload_receipt file w))
| reachable_get id w :
    reachable w -> reachable (snd (get_receipt id w))
| reachable_health w :
    reachable w -> reachable (snd (health_check w))
| reachable_startup w :
    reachable w -> reachable (snd (lifespan_startup w))
| reachable_faults fs w :
    reachable w -> reachable (set_faults fs w).

(** ** Sample worlds *)

Definition jan15 : datetime :=
  {| year := 2024; month := 1; day := 15;
     hour := 9; minute := 30; second := 0; microsecond := 0 |}.

(** A clock that stays at 2024-01-15 09:30:00 and advances by one
    microsecond per reading. *)
Definition clock_jan15 (n : nat) : datetime :=
  {| year := 2024; month := 1; day := 15;
     hour := 9; minute := 30; second := 0; microsecond := Z.of_nat n |}.

Definition world_with (pool : option Pool) (db : Database)
  (fs : list (option pystr)) : World :=
  {| db_pool := pool; database := db; faults := fs;
     clock := clock_jan15; ticks := 0 |}.

Definition receipt_jpg : UploadFile :=
  {| filename := Some (lit "receipt.jpg");
     content_type := Some (lit "image/jpeg");
     content := [255; 216; 255]%N |}.

Definition scan_png : UploadFile :=
  {| filename := Some (lit "scan.png");
     content_type := Some (lit "image/png");
     content := [137; 80; 78; 71]%N |}.

Definition notes_txt : UploadFile :=
  {| filename := Some (lit "notes.txt");
     content_type := Some (lit "text/plain");
     content := [104; 105]%N |}.

(** A file part sent without a Content-Type header. *)
Definition untyped_part : UploadFile :=
  {| filename := Some (lit "receipt.jpg"); content_type := None;
     content := [255; 216; 255]%N |}.

(** ** The rest of the service *)

(** [pool.close()] *)
Definition pool_close (p : Pool) : M unit := driver_call.

(** Shut-down, the part of [lifespan] after its [yield]: the pool is
    closed when there is one; the global is left as it is, and an
    exception of [close] is not caught. *)
Definition lifespan_shutdown : M unit :=
  pool <- get_db_pool ;;
  match pool with
  | Some p => pool_close p
  | None => ret tt
  end.

(** The dictionary returned by [readiness_check]. *)
Module ReadyResponse.
Record t := {
  status : pystr;
  timestamp : pystr
}.
End ReadyResponse.

(** GET /ready *)
Definition readiness_check : M ReadyResponse.t :=
  now <- datetime_now ;;
  ret {| ReadyResponse.status := lit "ready";
         ReadyResponse.timestamp := datetime_isoformat now |}.

(** ** Notions used by the further properties *)

(** A receipt row as [upload_receipt] writes it, and an item row as it
    writes it. *)
Definition uploaded_row (r : ReceiptRow) : Prop :=
  exists now1 now2, r = new_receipt_row now1 now2.

Definition uploaded_item (i : ItemRow) : Prop :=
  exists now1, In i (new_item_rows now1).

(** All rows of the tables were written by uploads, and the items of every
    receipt are a leading part of the source's item list, in its order. *)
Definition only_uploads (db : Database) : Prop :=
  Forall uploaded_row (receipts db)
  /\ Forall uploaded_item (receipt_items db).

Definition items_in_order (db : Database) : Prop :=
  forall r, In r (receipts db) ->
    exists now1 j,
      row_receipt_id r = new_receipt_id now1
      /\ select_items (row_receipt_id r) db = firstn j (new_item_rows now1).

Definition upload_invariant (db : Database) : Prop :=
  db_consistent db /\ only_uploads db /\ items_in_order db.

(** The merchant name of the placeholder. *)
Definition placeholder_merchant : pystr := lit "스타벅스 강남점 (더미)".

(** A clock that reads 2024-01-15 23:59:59 first and 2024-01-16 00:00:00
    from then on. *)
Definition clock_midnight (n : nat) : datetime :=
  match n with
  | O => {| year := 2024; month := 1; day := 15;
            hour := 23; minute := 59; second := 59; microsecond := 999990 |}
  | S _ => {| year := 2024; month := 1; day := 16;
              hour := 0; minute := 0; second := 0; microsecond := 12 |}
  end.

Definition world_at_midnight : World :=
  {| db_pool := None; database := empty_database; faults := [];
     clock := clock_midnight; ticks := 0 |}.

(** The world after a series of uploads, whatever each one answers. *)
Definition after_uploads (files : list UploadFile) (w : World) : World :=
  fold_left (fun w file => snd (upload_receipt file w)) files w.

(** * Properties *)

(** ** Strings and formats *)

Lemma eqb_refl (s : pystr) : PyStr.eqb s s = true.
Proof.
  induction s as [|c s IH]; simpl; [reflexivity|].
  now rewrite N.eqb_refl, IH.
Qed.

Lemma eqb_eq (s t : pystr) : PyStr.eqb s t = true <-> s = t.
Proof.
  split; [|intros ->; apply eqb_refl].
  revert t; induction s as [|c s IH]; intros [|d t]; simpl;
    try discriminate; [reflexivity|].
  intros H; apply andb_true_iff in H as [Hc Hs].
  apply N.eqb_eq in Hc; subst d.
  now rewrite (IH _ Hs).
Qed.

Lemma eqb_neq (s t : pystr) : PyStr.eqb s t = false <-> s <> t.
Proof.
  rewrite <- eqb_eq. destruct (PyStr.eqb s t); split; congruence.
Qed.

Lemma strftime_receipt_id (dt : datetime) :
  strftime dt (lit "%Y%m%d-%H%M%S")
  = pad4 (year dt) ++ pad2 (month dt) ++ pad2 (day dt) ++ lit "-"
    ++ pad2 (hour dt) ++ pad2 (minute dt) ++ pad2 (second dt).
Proof. reflexivity. Qed.

Lemma strftime_iso_date (dt : datetime) :
  strftime dt (lit "%Y-%m-%d") = date_isoformat (date_of dt).
Proof. reflexivity. Qed.

Lemma digit_range (n : Z) : is_digit (digit (n mod 10)) = true.
Proof.
  unfold is_digit, digit.
  assert (0 <= n mod 10 < 10)%Z by (apply Z.mod_pos_bound; lia).
  apply andb_true_iff; split; apply N.leb_le; lia.
Qed.

Lemma digit_inj (a b : Z) :
  (0 <= a)%Z -> (0 <= b)%Z -> digit a = digit b -> a = b.
Proof. unfold digit; intros Ha Hb H. lia. Qed.

Lemma pad2_inj (a b : Z) :
  (0 <= a < 100)%Z -> (0 <= b < 100)%Z -> pad2 a = pad2 b -> a = b.
Proof.
  unfold pad2; intros Ha Hb H.
  injection H as H1 H0.
  apply digit_inj in H1, H0;
    try (apply Z.mod_pos_bound; lia).
  Z.to_euclidean_division_equations; lia.
Qed.

Lemma pad4_inj (a b : Z) :
  (0 <= a < 10000)%Z -> (0 <= b < 10000)%Z -> pad4 a = pad4 b -> a = b.
Proof.
  unfold pad4; intros Ha Hb H.
  injection H as H3 H2 H1 H0.
  apply digit_inj in H3, H2, H1, H0;
    try (apply Z.mod_pos_bound; lia).
  Z.to_euclidean_division_equations; lia.
Qed.

Lemma clock_reading_bounds (dt : datetime) :
  clock_reading dt = true ->
  (1000 <= year dt < 10000 /\ 0 <= month dt < 100 /\ 0 <= day dt < 100
   /\ 0 <= hour dt < 100 /\ 0 <= minute dt < 100 /\ 0 <= second dt < 100)%Z.
Proof.
  unfold clock_reading, valid_datetime; intros H.
  repeat (apply andb_true_iff in H as [H ?]).
  assert (days_in_month (year dt) (month dt) <= 31)%Z.
  { unfold days_in_month.
    repeat match goal with |- context [if ?b then _ else _] => destruct b end;
      lia. }
  lia.
Qed.

(** The identifier of an upload determines the second of its clock reading,
    and nothing more of it. *)
Lemma new_receipt_id_eq_iff (dt1 dt2 : datetime) :
  clock_reading dt1 = true -> clock_reading dt2 = true ->
  (new_receipt_id dt1 = new_receipt_id dt2 <-> to_second dt1 = to_second dt2).
Proof.
  intros V1 V2.
  apply clock_reading_bounds in V1, V2.
  unfold new_receipt_id, to_second. rewrite !strftime_receipt_id.
  split.
  - intros H. apply app_inv_head in H.
    change (lit "-") with [45%N] in H.
    unfold pad4, pad2 in H. cbn [app] in H.
    injection H; intros.
    assert (Hy : pad4 (year dt1) = pad4 (year dt2))
      by (unfold pad4; congruence).
    assert (Hm : pad2 (month dt1) = pad2 (month dt2))
      by (unfold pad2; congruence).
    assert (Hd : pad2 (day dt1) = pad2 (day dt2))
      by (unfold pad2; congruence).
    assert (Hh : pad2 (hour dt1) = pad2 (hour dt2))
      by (unfold pad2; congruence).
    assert (Hmi : pad2 (minute dt1) = pad2 (minute dt2))
      by (unfold pad2; congruence).
    assert (Hs : pad2 (second dt1) = pad2 (second dt2))
      by (unfold pad2; congruence).
    apply pad4_inj in Hy; [|lia|lia].
    apply pad2_inj in Hm, Hd, Hh, Hmi, Hs; try lia.
    congruence.
  - intros H. injection H as -> -> -> -> -> ->. reflexivity.
Qed.

Lemma new_receipt_id_format (dt : datetime) :
  is_receipt_id_format (new_receipt_id dt) = true.
Proof.
  unfold new_receipt_id. rewrite strftime_receipt_id.
  unfold is_receipt_id_format, pad4, pad2.
  change (lit "RCP-") with [82; 67; 80; 45]%N.
  change (lit "-") with [45%N].
  cbn [app startswith skipn take_digits].
  rewrite !N.eqb_refl, !digit_range. reflexivity.
Qed.

(** ** Worlds and driver calls *)

Lemma reached_start (w : World) : reached (database w) 0 0 w = w.
Proof. destruct w; reflexivity. Qed.

Lemma fault_shift (k j : nat) (w : World) :
  fault (k + S j) w = fault (S k + j) w.
Proof. now rewrite Nat.add_succ_r. Qed.

Lemma driver_call_reached db k t w :
  driver_call (reached db k t w)
  = (match fault k w with
     | None => Return tt
     | Some text => Raise (DriverError text)
     end, reached db (S k) t w).
Proof. reflexivity. Qed.

Lemma insert_receipt_reached c r db k t w :
  execute_insert_receipt c r (reached db k t w)
  = match fault k w with
    | Some text => (Raise (DriverError text), reached db (S k) t w)
    | None =>
        if unique_violation r db
        then (Raise (DriverError
                (lit "duplicate key value violates unique constraint")),
              reached db (S k) t w)
        else (Return tt, reached (add_receipt r db) (S k) t w)
    end.
Proof.
  unfold execute_insert_receipt, bind. rewrite driver_call_reached.
  destruct (fault k w); [reflexivity|].
  cbn [database reached]. destruct (unique_violation r db); reflexivity.
Qed.

Lemma insert_item_reached c i db k t w :
  execute_insert_item c i (reached db k t w)
  = match fault k w with
    | Some text => (Raise (DriverError text), reached db (S k) t w)
    | None =>
        if foreign_key_violation i db
        then (Raise (DriverError
                (lit "insert or update on table violates foreign key constraint")),
              reached db (S k) t w)
        else (Return tt, reached (add_item i db) (S k) t w)
    end.
Proof.
  unfold execute_insert_item, bind. rewrite driver_call_reached.
  destruct (fault k w); [reflexivity|].
  cbn [database reached]. destruct (foreign_key_violation i db); reflexivity.
Qed.

Lemma fetchrow_reached c id db k t w :
  fetchrow_receipt c id (reached db k t w)
  = (match fault k w with
     | None => Return (select_receipt id db)
     | Some text => Raise (DriverError text)
     end, reached db (S k) t w).
Proof.
  unfold fetchrow_receipt, bind. rewrite driver_call_reached.
  destruct (fault k w); reflexivity.
Qed.

Lemma fetch_items_reached c id db k t w :
  fetch_items c id (reached db k t w)
  = (match fault k w with
     | None => Return (select_items id db)
     | Some text => Raise (DriverError text)
     end, reached db (S k) t w).
Proof.
  unfold fetch_items, bind. rewrite driver_call_reached.
  destruct (fault k w); reflexivity.
Qed.

Lemma datetime_now_reached db k t w :
  datetime_now (reached db k t w)
  = (Return (clock w (t + ticks w)), reached db k (S t) w).
Proof. reflexivity. Qed.

(** ** The tables *)

Lemma add_items_receipts rows db :
  receipts (add_items rows db) = receipts db.
Proof.
  unfold add_items. revert db.
  induction rows as [|i rows IH]; intros db; simpl; [reflexivity|].
  now rewrite IH.
Qed.

Lemma add_items_receipt_items rows db :
  receipt_items (add_items rows db) = receipt_items db ++ rows.
Proof.
  unfold add_items. revert db.
  induction rows as [|i rows IH]; intros db; simpl.
  - now rewrite app_nil_r.
  - rewrite IH. simpl. now rewrite <- app_assoc.
Qed.

Lemma add_items_snoc rows i db :
  add_items (rows ++ [i]) db = add_item i (add_items rows db).
Proof. unfold add_items. now rewrite fold_left_app. Qed.

Lemma unique_violation_false_iff r db :
  unique_violation r db = false
  <-> ~ In (row_receipt_id r) (map row_receipt_id (receipts db)).
Proof.
  unfold unique_violation. split.
  - intros H Hin. apply in_map_iff in Hin as [r' [Heq Hin]].
    assert (existsb (fun r'0 => PyStr.eqb (row_receipt_id r'0)
                                  (row_receipt_id r)) (receipts db) = true).
    { apply existsb_exists. exists r'. split; [exact Hin|].
      now apply eqb_eq. }
    congruence.
  - intros H. apply not_true_is_false. intros Hex.
    apply existsb_exists in Hex as [r' [Hin Heq]].
    apply eqb_eq in Heq. apply H. apply in_map_iff. now exists r'.
Qed.

Lemma foreign_key_after_receipt i r db :
  item_receipt_id i = row_receipt_id r ->
  foreign_key_violation i (add_receipt r db) = false.
Proof.
  intros Hid. unfold foreign_key_violation, add_receipt; cbn [receipts].
  rewrite existsb_app; cbn [existsb].
  rewrite Hid, eqb_refl. now rewrite orb_true_r.
Qed.

Lemma foreign_key_add_items i rows db :
  foreign_key_violation i (add_items rows db) = foreign_key_violation i db.
Proof. unfold foreign_key_violation. now rewrite add_items_receipts. Qed.

Lemma foreign_key_false_iff i db :
  foreign_key_violation i db = false
  <-> In (item_receipt_id i) (map row_receipt_id (receipts db)).
Proof.
  unfold foreign_key_violation. rewrite negb_false_iff, existsb_exists.
  split.
  - intros [r [Hin Heq]]. apply eqb_eq in Heq. rewrite <- Heq.
    now apply in_map.
  - intros Hin. apply in_map_iff in Hin as [r [Heq Hin]].
    exists r. split; [exact Hin|]. now apply eqb_eq.
Qed.

Lemma empty_database_consistent : db_consistent empty_database.
Proof. split; [constructor | intros i []]. Qed.

Lemma add_receipt_consistent r db :
  db_consistent db -> unique_violation r db = false ->
  db_consistent (add_receipt r db).
Proof.
  intros [Hnd Hfk] Hu. apply unique_violation_false_iff in Hu.
  split; cbn [add_receipt receipts receipt_items].
  - rewrite map_app; cbn [map].
    apply NoDup_app; [exact Hnd | repeat constructor; intros [] |].
    intros x Hx [<-|[]]. exact (Hu Hx).
  - intros i Hi. rewrite map_app. apply in_or_app. left. now apply Hfk.
Qed.

Lemma add_item_consistent i db :
  db_consistent db -> foreign_key_violation i db = false ->
  db_consistent (add_item i db).
Proof.
  intros [Hnd Hfk] Hv. apply foreign_key_false_iff in Hv.
  split; cbn [add_item receipts receipt_items]; [exact Hnd|].
  intros i' Hi'. apply in_app_or in Hi' as [Hi'|[<-|[]]];
    [now apply Hfk | exact Hv].
Qed.

Lemma select_receipt_added r rows db :
  unique_violation r db = false ->
  select_receipt (row_receipt_id r) (add_items rows (add_receipt r db))
  = Some r.
Proof.
  intros Hu. unfold select_receipt.
  rewrite add_items_receipts; cbn [add_receipt receipts].
  assert (Hnone : find (fun r0 => PyStr.eqb (row_receipt_id r0)
                                    (row_receipt_id r)) (receipts db) = None).
  { unfold unique_violation in Hu.
    induction (receipts db) as [|r0 l IH]; [reflexivity|].
    cbn [existsb find] in *. apply orb_false_iff in Hu as [H0 Hl].
    rewrite H0. now apply IH. }
  induction (receipts db) as [|r0 l IH]; cbn [app find] in *.
  - now rewrite eqb_refl.
  - destruct (PyStr.eqb (row_receipt_id r0) (row_receipt_id r));
      [discriminate | now apply IH].
Qed.

Lemma select_items_none id db :
  db_consistent db ->
  ~ In id (map row_receipt_id (receipts db)) ->
  select_items id db = [].
Proof.
  intros [_ Hfk] Hnot. unfold select_items.
  induction (receipt_items db) as [|i l IH]; [reflexivity|].
  cbn [filter].
  destruct (PyStr.eqb (item_receipt_id i) id) eqn:Heq.
  - apply eqb_eq in Heq. exfalso. apply Hnot. rewrite <- Heq.
    apply Hfk. now left.
  - apply IH. intros i' Hi'. apply Hfk. now right.
Qed.

Lemma select_items_added r rows db :
  db_consistent db ->
  unique_violation r db = false ->
  Forall (fun i => item_receipt_id i = row_receipt_id r) rows ->
  select_items (row_receipt_id r) (add_items rows (add_receipt r db)) = rows.
Proof.
  intros Hc Hu Hrows.
  pose proof (select_items_none _ _ Hc (proj1 (unique_violation_false_iff r db) Hu))
    as Hnone.
  unfold select_items in *.
  rewrite add_items_receipt_items; cbn [add_receipt receipt_items].
  rewrite filter_app, Hnone; cbn [app].
  induction Hrows as [|i rows Hi _ IH]; [reflexivity|].
  cbn [filter]. rewrite Hi, eqb_refl. now rewrite IH.
Qed.

(** ** The item loop

    Each insert is committed on its own: the loop stops at the first insert
    that fails, and the rows inserted before it stay. *)

Lemma for_each_all_ok c rows : forall db k t w,
  (forall j, j < List.length rows -> fault (k + j) w = None) ->
  (forall i, In i rows -> foreign_key_violation i db = false) ->
  for_each rows (execute_insert_item c) (reached db k t w)
  = (Return tt, reached (add_items rows db) (k + List.length rows) t w).
Proof.
  induction rows as [|i rows IH]; intros db k t w Hok Hfk.
  - cbn [for_each List.length]. now rewrite Nat.add_0_r.
  - cbn [for_each]. unfold bind at 1. rewrite insert_item_reached.
    pose proof (Hok 0 ltac:(cbn; lia)) as H0. rewrite Nat.add_0_r in H0.
    rewrite H0, (Hfk i (or_introl eq_refl)).
    rewrite IH.
    + cbn [List.length]. now rewrite Nat.add_succ_r.
    + intros j Hj. rewrite <- fault_shift. apply Hok. cbn; lia.
    + intros i' Hi'. exact (Hfk i' (or_intror Hi')).
Qed.

Lemma for_each_fails_at c rows : forall db k t w j text,
  j < List.length rows ->
  (forall j', j' < j -> fault (k + j') w = None) ->
  fault (k + j) w = Some text ->
  (forall i, In i rows -> foreign_key_violation i db = false) ->
  for_each rows (execute_insert_item c) (reached db k t w)
  = (Raise (DriverError text),
     reached (add_items (firstn j rows) db) (k + S j) t w).
Proof.
  induction rows as [|i rows IH]; intros db k t w j text Hj Hok Hbad Hfk.
  - cbn in Hj; lia.
  - cbn [for_each]. unfold bind at 1. rewrite insert_item_reached.
    destruct j as [|j].
    + rewrite Nat.add_0_r in Hbad. rewrite Hbad.
      cbn [firstn]. now rewrite Nat.add_1_r.
    + pose proof (Hok 0 ltac:(lia)) as H0. rewrite Nat.add_0_r in H0.
      rewrite H0, (Hfk i (or_introl eq_refl)).
      rewrite (IH _ (S k) t w j text).
      * cbn [firstn]. now rewrite (Nat.add_succ_r k (S j)).
      * cbn in Hj; lia.
      * intros j' Hj'. rewrite <- fault_shift. apply Hok. lia.
      * now rewrite <- fault_shift.
      * intros i' Hi'. exact (Hfk i' (or_intror Hi')).
Qed.

Lemma first_fault_dec (n k : nat) (w : World) :
  (forall j, j < n -> fault (k + j) w = None)
  \/ exists j text, j < n
       /\ (forall j', j' < j -> fault (k + j') w = None)
       /\ fault (k + j) w = Some text.
Proof.
  induction n as [|n IH].
  - left. intros j Hj. lia.
  - destruct IH as [Hall | (j & text & Hj & Hbefore & Hat)].
    + destruct (fault (k + n) w) as [text|] eqn:Hn.
      * right. exists n, text. repeat split; [lia | | exact Hn].
        intros j' Hj'. apply Hall. exact Hj'.
      * left. intros j Hj.
        destruct (Nat.eq_dec j n) as [->|Hne]; [exact Hn|].
        apply Hall. lia.
    + right. exists j, text. repeat split; [lia | exact Hbefore | exact Hat].
Qed.

(** ** [async with pool.acquire()] *)

Lemma with_acquire_reached {A} p (body : Connection -> M A) db k t w :
  with_acquire p body (reached db k t w)
  = match fault k w with
    | Some text => (Raise (DriverError text), reached db (S k) t w)
    | None =>
        let (r, w2) := body PooledConnection (reached db (S k) t w) in
        match release p PooledConnection w2 with
        | (Raise e, w3) => (Raise e, w3)
        | (Return _, w3) => (r, w3)
        end
    end.
Proof.
  unfold with_acquire, acquire, bind. rewrite driver_call_reached.
  destruct (fault k w); reflexivity.
Qed.

Lemma with_acquire_body {A} p (body : Connection -> M A) db k t w
      (r : outcome A) db' k' t' :
  fault k w = None ->
  body PooledConnection (reached db (S k) t w) = (r, reached db' k' t' w) ->
  with_acquire p body (reached db k t w)
  = (match fault k' w with
     | Some text => Raise (DriverError text)
     | None => r
     end, reached db' (S k') t' w).
Proof.
  intros Hk Hbody. rewrite with_acquire_reached, Hk, Hbody.
  unfold release. rewrite driver_call_reached.
  destruct (fault k' w); reflexivity.
Qed.

(** ** The database-write block *)

Section SaveBlock.

Variables (p : Pool) (r : ReceiptRow) (rows : list ItemRow).
Hypothesis rows_of_r :
  Forall (fun i => item_receipt_id i = row_receipt_id r) rows.

Lemma rows_pass_foreign_key db rows' :
  forall i, In i rows ->
    foreign_key_violation i (add_items rows' (add_receipt r db)) = false.
Proof.
  intros i Hi. rewrite foreign_key_add_items.
  apply foreign_key_after_receipt.
  exact (proj1 (Forall_forall _ _) rows_of_r i Hi).
Qed.

Lemma save_block_saved db t w :
  unique_violation r db = false ->
  (forall j, j < 3 + List.length rows -> fault j w = None) ->
  save_block p r rows (reached db 0 t w)
  = (Return msg_saved,
     reached (add_items rows (add_receipt r db)) (3 + List.length rows) t w).
Proof.
  intros Hu Hok. unfold save_block.
  rewrite (with_acquire_body p _ db 0 t w (Return msg_saved)
             (add_items rows (add_receipt r db)) (2 + List.length rows) t).
  - rewrite (Hok (2 + List.length rows)) by lia. reflexivity.
  - apply Hok; lia.
  - unfold bind. rewrite insert_receipt_reached, (Hok 1), Hu by lia.
    rewrite for_each_all_ok; [reflexivity | |].
    + intros j Hj. apply Hok. lia.
    + apply (rows_pass_foreign_key db []).
Qed.

Lemma save_block_item_fails db t w j text :
  unique_violation r db = false ->
  fault 0 w = None -> fault 1 w = None ->
  j < List.length rows ->
  (forall j', j' < j -> fault (2 + j') w = None) ->
  fault (2 + j) w = Some text ->
  exists e,
    save_block p r rows (reached db 0 t w)
    = (Raise e,
       reached (add_items (firstn j rows) (add_receipt r db)) (4 + j) t w).
Proof.
  intros Hu H0 H1 Hj Hbefore Hat. unfold save_block.
  rewrite (with_acquire_body p _ db 0 t w (Raise (DriverError text))
             (add_items (firstn j rows) (add_receipt r db)) (3 + j) t).
  - destruct (fault (3 + j) w) as [text'|]; eauto.
  - exact H0.
  - unfold bind. rewrite insert_receipt_reached, H1, Hu.
    rewrite (for_each_fails_at _ rows _ 2 t w j text);
      [reflexivity | exact Hj | exact Hbefore | exact Hat |].
    apply (rows_pass_foreign_key db []).
Qed.

(** When the receipt insert itself fails, nothing is written. *)
Lemma save_block_receipt_fails db t w :
  fault 0 w = None ->
  fault 1 w <> None \/ unique_violation r db = true ->
  exists e,
    save_block p r rows (reached db 0 t w) = (Raise e, reached db 3 t w).
Proof.
  intros H0 Hfail. unfold save_block.
  assert (Hbody : exists e,
    (execute_insert_receipt PooledConnection r ;;;
     for_each rows (execute_insert_item PooledConnection) ;;;
     ret msg_saved) (reached db 1 t w) = (Raise e, reached db 2 t w)).
  { unfold bind. rewrite insert_receipt_reached.
    destruct (fault 1 w) as [text|]; [eauto|].
    destruct Hfail as [Hne|Hu]; [congruence|]. rewrite Hu. eauto. }
  destruct Hbody as [e Hbody].
  rewrite (with_acquire_body p _ db 0 t w (Raise e) db 2 t H0 Hbody).
  destruct (fault 2 w); eauto.
Qed.

Lemma save_block_acquire_fails db t w text :
  fault 0 w = Some text ->
  save_block p r rows (reached db 0 t w)
  = (Raise (DriverError text), reached db 1 t w).
Proof.
  intros H0. unfold save_block. now rewrite with_acquire_reached, H0.
Qed.

(** The block returns only when every statement and the release went
    through. *)
Lemma save_block_returns db t w m w' :
  save_block p r rows (reached db 0 t w) = (Return m, w') ->
  m = msg_saved
  /\ unique_violation r db = false
  /\ (forall j, j < 3 + List.length rows -> fault j w = None)
  /\ w' = reached (add_items rows (add_receipt r db))
                  (3 + List.length rows) t w.
Proof.
  intros Hrun.
  destruct (fault 0 w) as [text|] eqn:H0.
  { rewrite (save_block_acquire_fails db t w text H0) in Hrun.
    discriminate. }
  destruct (fault 1 w) as [text|] eqn:H1.
  { destruct (save_block_receipt_fails db t w H0) as [e He].
    - left. congruence.
    - rewrite He in Hrun. discriminate. }
  destruct (unique_violation r db) eqn:Hu.
  { destruct (save_block_receipt_fails db t w H0) as [e He].
    - now right.
    - rewrite He in Hrun. discriminate. }
  destruct (first_fault_dec (List.length rows) 2 w)
    as [Hall | (j & text & Hj & Hbefore & Hat)].
  2:{ destruct (save_block_item_fails db t w j text Hu H0 H1 Hj Hbefore Hat)
        as [e He].
      rewrite He in Hrun. discriminate. }
  destruct (fault (2 + List.length rows) w) as [text|] eqn:Hrel.
  { revert Hrun. unfold save_block.
    rewrite (with_acquire_body p _ db 0 t w (Return msg_saved)
               (add_items rows (add_receipt r db)) (2 + List.length rows) t).
    - rewrite Hrel. discriminate.
    - exact H0.
    - unfold bind. rewrite insert_receipt_reached, H1, Hu.
      rewrite for_each_all_ok; [reflexivity | exact Hall |].
      apply (rows_pass_foreign_key db []). }
  assert (Hok : forall j, j < 3 + List.length rows -> fault j w = None).
  { intros j Hj.
    destruct j as [|[|j]]; [exact H0 | exact H1 |].
    destruct (Nat.eq_dec j (List.length rows)) as [->|Hne]; [exact Hrel|].
    apply (Hall j). lia. }
  rewrite (save_block_saved db t w Hu Hok) in Hrun.
  injection Hrun as <- <-. repeat split; assumption.
Qed.

End SaveBlock.

(** ** [upload_receipt] *)

Lemma new_item_rows_of_receipt now1 now2 :
  Forall (fun i => item_receipt_id i = row_receipt_id (new_receipt_row now1 now2))
         (new_item_rows now1).
Proof. repeat constructor. Qed.

Lemma upload_receipt_eq file :
  is_image file = true ->
  upload_receipt file
  = (now1 <- datetime_now ;;
     now2 <- datetime_now ;;
     pool <- get_db_pool ;;
     message <-
       match pool with
       | Some p =>
           try_except
             (save_block p (new_receipt_row now1 now2) (new_item_rows now1))
             (fun _ => ret msg_save_failed)
       | None => ret msg_dummy_mode
       end ;;
     ret (response now1 now2 message)).
Proof.
  intros H. unfold upload_receipt. unfold is_image in H.
  destruct (content_type file) as [ct|]; [|discriminate]. rewrite H.
  unfold save_block, new_receipt_row, new_item_rows, response, msg_saved,
    msg_save_failed, msg_dummy_mode, new_receipt_id, items.
  cbn [negb map for_each].
  reflexivity.
Qed.

Lemma upload_receipt_rejects file w :
  is_image file = false ->
  upload_receipt file w = (Raise (refusal file), w).
Proof.
  intros H. unfold upload_receipt, refusal. unfold is_image in H.
  destruct (content_type file) as [ct|]; [rewrite H|]; reflexivity.
Qed.

(** The run of an accepted upload, in terms of the database-write block. *)
Lemma upload_receipt_run file w :
  is_image file = true ->
  upload_receipt file w
  = let now1 := clock w (ticks w) in
    let now2 := clock w (S (ticks w)) in
    match db_pool w with
    | Some p =>
        match save_block p (new_receipt_row now1 now2) (new_item_rows now1)
                (reached (database w) 0 2 w) with
        | (Return m, w') => (Return (response now1 now2 m), w')
        | (Raise _, w') => (Return (response now1 now2 msg_save_failed), w')
        end
    | None =>
        (Return (response now1 now2 msg_dummy_mode),
         reached (database w) 0 2 w)
    end.
Proof.
  intros H. rewrite (upload_receipt_eq file H).
  unfold bind, datetime_now, get_db_pool, try_except, ret.
  cbn [db_pool tick clock ticks].
  change (tick (tick w)) with (reached (database w) 0 2 w).
  destruct (db_pool w) as [p|]; [|reflexivity].
  destruct (save_block p _ _ _) as [[m|e] w']; reflexivity.
Qed.

Lemma messages_distinct :
  msg_saved <> msg_save_failed /\ msg_saved <> msg_dummy_mode
  /\ msg_save_failed <> msg_dummy_mode.
Proof. repeat split; apply eqb_neq; vm_compute; reflexivity. Qed.

(** Every accepted upload answers with [response] and one of the three
    messages; the message is [msg_saved] exactly when the write block
    returned. *)
Lemma upload_receipt_cases file w :
  is_image file = true ->
  let now1 := clock w (ticks w) in
  let now2 := clock w (S (ticks w)) in
  let row := new_receipt_row now1 now2 in
  let rows := new_item_rows now1 in
  exists m w',
    upload_receipt file w = (Return (response now1 now2 m), w')
    /\ ((m = msg_saved /\ db_pool w <> None
         /\ unique_violation row (database w) = false
         /\ (forall j, j < 5 -> fault j w = None)
         /\ w' = reached (add_items rows (add_receipt row (database w))) 5 2 w)
        \/ (m = msg_save_failed /\ db_pool w <> None
            /\ (unique_violation row (database w) = true
                \/ exists j, j < 5 /\ fault j w <> None))
        \/ (m = msg_dummy_mode /\ db_pool w = None
            /\ w' = reached (database w) 0 2 w)).
Proof.
  intros H. cbv zeta. rewrite (upload_receipt_run file w H). cbv zeta.
  set (now1 := clock w (ticks w)). set (now2 := clock w (S (ticks w))).
  set (row := new_receipt_row now1 now2). set (rows := new_item_rows now1).
  destruct (db_pool w) as [p|] eqn:Hp.
  2:{ exists msg_dummy_mode, (reached (database w) 0 2 w).
      split; [reflexivity|]. right; right. auto. }
  destruct (save_block p row rows (reached (database w) 0 2 w))
    as [[m|e] w'] eqn:Hrun.
  - apply save_block_returns in Hrun;
      [|apply new_item_rows_of_receipt].
    destruct Hrun as (-> & Hu & Hok & ->).
    exists msg_saved,
      (reached (add_items rows (add_receipt row (database w))) 5 2 w).
    split; [reflexivity|]. left.
    repeat split; [congruence | exact Hu | exact Hok].
  - exists msg_save_failed, w'. split; [reflexivity|]. right; left.
    repeat split; [congruence|].
    destruct (unique_violation row (database w)) eqn:Hu; [now left|right].
    destruct (first_fault_dec 5 0 w) as [Hall | (j & text & Hj & _ & Hat)].
    + rewrite (save_block_saved p row rows (new_item_rows_of_receipt now1 now2)
                 (database w) 2 w Hu Hall) in Hrun.
      discriminate.
    + exists j. split; [exact Hj|]. cbn [Nat.add] in Hat. congruence.
Qed.

(** ** [get_receipt] *)

Lemma run_from_start {A} (m : M A) (w : World) :
  m w = m (reached (database w) 0 0 w).
Proof. now rewrite reached_start. Qed.

Lemma get_receipt_eq id :
  get_receipt id
  = (pool <- get_db_pool ;;
     found <-
       match pool with
       | Some p =>
           try_except (fetch_block p id)
             (fun e =>
                match e with
                | HTTPException _ _ => raise e
                | _ => ret None
                end)
       | None => ret None
       end ;;
     match found with
     | Some detail => ret detail
     | None => now <- datetime_now ;; ret (dummy_detail id now)
     end).
Proof. reflexivity. Qed.

Lemma fetch_block_run p id db t w :
  fetch_block p id (reached db 0 t w)
  = match fault 0 w with
    | Some text => (Raise (DriverError text), reached db 1 t w)
    | None =>
        match fault 1 w with
        | Some text =>
            (match fault 2 w with
             | Some text' => Raise (DriverError text')
             | None => Raise (DriverError text)
             end, reached db 3 t w)
        | None =>
            match select_receipt id db with
            | None =>
                (match fault 2 w with
                 | Some text' => Raise (DriverError text')
                 | None => Raise not_found
                 end, reached db 3 t w)
            | Some r =>
                match fault 2 w with
                | Some text =>
                    (match fault 3 w with
                     | Some text' => Raise (DriverError text')
                     | None => Raise (DriverError text)
                     end, reached db 4 t w)
                | None =>
                    (match fault 3 w with
                     | Some text' => Raise (DriverError text')
                     | None =>
                         Return (Some (detail_of_rows r (select_items id db)))
                     end, reached db 4 t w)
                end
            end
        end
    end.
Proof.
  unfold fetch_block. rewrite with_acquire_reached.
  destruct (fault 0 w) as [text0|]; [reflexivity|].
  unfold bind, release. rewrite fetchrow_reached.
  destruct (fault 1 w) as [text1|].
  { cbv beta iota. rewrite driver_call_reached.
    destruct (fault 2 w); reflexivity. }
  destruct (select_receipt id db) as [r|].
  2:{ unfold raise. cbv beta iota. rewrite driver_call_reached.
      destruct (fault 2 w); reflexivity. }
  rewrite fetch_items_reached.
  destruct (fault 2 w) as [text2|]; unfold ret; cbv beta iota;
    rewrite driver_call_reached; destruct (fault 3 w); reflexivity.
Qed.

(** The whole of [get_receipt], by the pool, the scheduled faults and the
    tables. *)
Lemma get_receipt_run id w :
  get_receipt id w
  = let dummy k :=
      (Return (dummy_detail id (clock w (ticks w))),
       reached (database w) k 1 w) in
    match db_pool w with
    | None => dummy 0
    | Some p =>
        match fault 0 w with
        | Some _ => dummy 1
        | None =>
            match fault 1 w with
            | Some _ => dummy 3
            | None =>
                match select_receipt id (database w) with
                | None =>
                    match fault 2 w with
                    | Some _ => dummy 3
                    | None => (Raise not_found, reached (database w) 3 0 w)
                    end
                | Some r =>
                    match fault 2 w with
                    | Some _ => dummy 4
                    | None =>
                        match fault 3 w with
                        | Some _ => dummy 4
                        | None =>
                            (Return (detail_of_rows r
                                       (select_items id (database w))),
                             reached (database w) 4 0 w)
                        end
                    end
                end
            end
        end
    end.
Proof.
  rewrite get_receipt_eq. cbv zeta.
  unfold bind at 1. unfold get_db_pool at 1.
  destruct (db_pool w) as [p|]; [|reflexivity].
  unfold bind at 1, try_except.
  rewrite (run_from_start (fetch_block p id) w), fetch_block_run.
  destruct (fault 0 w); [reflexivity|].
  destruct (fault 1 w); [destruct (fault 2 w); reflexivity|].
  destruct (select_receipt id (database w));
    destruct (fault 2 w); try reflexivity;
    destruct (fault 3 w); reflexivity.
Qed.

(** ** [health_check] *)

Lemma health_check_eq :
  health_check
  = (pool <- get_db_pool ;;
     db_status <-
       match pool with
       | Some p =>
           try_except (probe p)
             (fun e => ret (lit "error: " ++ slice_to 50 (str_exn e)))
       | None => ret (lit "not configured")
       end ;;
     now <- datetime_now ;;
     ret (health_response db_status now)).
Proof. reflexivity. Qed.

Lemma health_check_run w :
  health_check w
  = match db_pool w with
    | Some p =>
        match probe p w with
        | (Return s, w1) =>
            (Return (health_response s (clock w1 (ticks w1))), tick w1)
        | (Raise e, w1) =>
            (Return (health_response
                       (lit "error: " ++ slice_to 50 (str_exn e))
                       (clock w1 (ticks w1))), tick w1)
        end
    | None =>
        (Return (health_response (lit "not configured") (clock w (ticks w))),
         tick w)
    end.
Proof.
  rewrite health_check_eq.
  unfold bind at 1. unfold get_db_pool at 1.
  destruct (db_pool w) as [p|]; [|reflexivity].
  unfold bind, try_except.
  destruct (probe p w) as [[s|e] w1]; reflexivity.
Qed.

Lemma probe_returns_connected p w s w1 :
  probe p w = (Return s, w1) -> s = lit "connected".
Proof.
  rewrite (run_from_start (probe p) w). unfold probe.
  rewrite with_acquire_reached.
  destruct (fault 0 w); [discriminate|].
  unfold fetchval_select_1, bind, release, ret.
  rewrite driver_call_reached.
  destruct (fault 1 w); cbv beta iota; rewrite driver_call_reached;
    destruct (fault 2 w); intros H; inversion H; reflexivity.
Qed.

Lemma health_status_iff st now :
  HealthResponse.status (health_response st now) = lit "healthy"
  <-> HealthResponse.database (health_response st now) = lit "connected".
Proof.
  cbn [health_response HealthResponse.status HealthResponse.database].
  destruct (PyStr.eqb st (lit "connected")) eqn:E.
  - apply eqb_eq in E. tauto.
  - apply eqb_neq in E. split; [|tauto].
    intros H. exfalso. revert H. apply eqb_neq. vm_compute. reflexivity.
Qed.

Lemma health_status_two_valued st now :
  HealthResponse.status (health_response st now) = lit "healthy"
  \/ HealthResponse.status (health_response st now) = lit "degraded".
Proof.
  cbn [health_response HealthResponse.status].
  destruct (PyStr.eqb st (lit "connected")); auto.
Qed.

Lemma error_status_not_connected reason :
  PyStr.eqb (lit "error: " ++ reason) (lit "connected") = false.
Proof. reflexivity. Qed.

(** ** The schema's guarantees are kept by every endpoint *)

Lemma preserves_ret {A} (a : A) : preserves (ret a).
Proof. intros w r w' H E. injection E as _ <-. exact H. Qed.

Lemma preserves_raise {A} e : preserves (@raise A e).
Proof. intros w r w' H E. injection E as _ <-. exact H. Qed.

Lemma preserves_bind {A B} (m : M A) (k : A -> M B) :
  preserves m -> (forall a, preserves (k a)) -> preserves (bind m k).
Proof.
  intros Hm Hk w r w' H E. unfold bind in E.
  destruct (m w) as [[a|e] w1] eqn:E1.
  - exact (Hk a w1 r w' (Hm _ _ _ H E1) E).
  - injection E as _ <-. exact (Hm _ _ _ H E1).
Qed.

Lemma preserves_try_except {A} (m : M A) (h : exn -> M A) :
  preserves m -> (forall e, preserves (h e)) -> preserves (try_except m h).
Proof.
  intros Hm Hh w r w' H E. unfold try_except in E.
  destruct (m w) as [[a|e] w1] eqn:E1.
  - injection E as _ <-. exact (Hm _ _ _ H E1).
  - exact (Hh e w1 r w' (Hm _ _ _ H E1) E).
Qed.

Lemma preserves_driver_call : preserves driver_call.
Proof. intros w r w' H E. injection E as _ <-. exact H. Qed.

Lemma preserves_datetime_now : preserves datetime_now.
Proof. intros w r w' H E. injection E as _ <-. exact H. Qed.

Lemma preserves_get_db_pool : preserves get_db_pool.
Proof. intros w r w' H E. injection E as _ <-. exact H. Qed.

Lemma preserves_for_each {A} (xs : list A) (body : A -> M unit) :
  (forall x, preserves (body x)) -> preserves (for_each xs body).
Proof.
  intros Hb. induction xs as [|x xs IH]; cbn [for_each].
  - apply preserves_ret.
  - apply preserves_bind; [apply Hb | intros _; exact IH].
Qed.

Lemma preserves_with_acquire {A} p (body : Connection -> M A) :
  (forall c, preserves (body c)) -> preserves (with_acquire p body).
Proof.
  intros Hb w r w' H E. unfold with_acquire in E.
  destruct (acquire p w) as [[c|e] w1] eqn:E1.
  2:{ injection E as _ <-.
      unfold acquire in E1.
      exact (preserves_bind _ _ preserves_driver_call
               (fun _ => preserves_ret _) _ _ _ H E1). }
  assert (H1 : db_consistent (database w1)).
  { unfold acquire in E1.
    exact (preserves_bind _ _ preserves_driver_call
             (fun _ => preserves_ret _) _ _ _ H E1). }
  destruct (body c w1) as [rb w2] eqn:E2.
  pose proof (Hb c _ _ _ H1 E2) as H2.
  destruct (release p c w2) as [[u|e] w3] eqn:E3;
    injection E as _ <-;
    exact (preserves_driver_call _ _ _ H2 E3).
Qed.

Lemma preserves_insert_receipt c r : preserves (execute_insert_receipt c r).
Proof.
  unfold execute_insert_receipt.
  apply preserves_bind; [apply preserves_driver_call|].
  intros _ w o w' H E.
  destruct (unique_violation r (database w)) eqn:Hu;
    injection E as _ <-; [exact H|].
  now apply add_receipt_consistent.
Qed.

Lemma preserves_insert_item c i : preserves (execute_insert_item c i).
Proof.
  unfold execute_insert_item.
  apply preserves_bind; [apply preserves_driver_call|].
  intros _ w o w' H E.
  destruct (foreign_key_violation i (database w)) eqn:Hv;
    injection E as _ <-; [exact H|].
  now apply add_item_consistent.
Qed.

Lemma preserves_save_block p r rows : preserves (save_block p r rows).
Proof.
  unfold save_block. apply preserves_with_acquire. intros c.
  apply preserves_bind; [apply preserves_insert_receipt|]. intros _.
  apply preserves_bind; [|intros _; apply preserves_ret].
  apply preserves_for_each. intros i. apply preserves_insert_item.
Qed.

Lemma preserves_upload_receipt file : preserves (upload_receipt file).
Proof.
  destruct (is_image file) eqn:Himg.
  2:{ intros w r w' H E. rewrite (upload_receipt_rejects file w Himg) in E.
      injection E as _ <-. exact H. }
  rewrite (upload_receipt_eq file Himg).
  apply preserves_bind; [apply preserves_datetime_now|]. intros now1.
  apply preserves_bind; [apply preserves_datetime_now|]. intros now2.
  apply preserves_bind; [apply preserves_get_db_pool|]. intros pool.
  apply preserves_bind; [|intros m; apply preserves_ret].
  destruct pool as [p|]; [|apply preserves_ret].
  apply preserves_try_except; [apply preserves_save_block|].
  intros e. apply preserves_ret.
Qed.

Lemma get_receipt_database id w : database (snd (get_receipt id w)) = database w.
Proof.
  rewrite get_receipt_run. cbv zeta.
  destruct (db_pool w); [|reflexivity].
  destruct (fault 0 w); [reflexivity|].
  destruct (fault 1 w); [reflexivity|].
  destruct (select_receipt id (database w));
    destruct (fault 2 w); try reflexivity;
    destruct (fault 3 w); reflexivity.
Qed.

Lemma probe_database p w : database (snd (probe p w)) = database w.
Proof.
  rewrite (run_from_start (probe p) w). unfold probe.
  rewrite with_acquire_reached.
  destruct (fault 0 w); [reflexivity|].
  unfold fetchval_select_1, bind, release, ret.
  rewrite driver_call_reached.
  destruct (fault 1 w); cbv beta iota; rewrite driver_call_reached;
    destruct (fault 2 w); reflexivity.
Qed.

Lemma health_check_database w :
  database (snd (health_check w)) = database w.
Proof.
  rewrite health_check_run.
  destruct (db_pool w) as [p|]; [|reflexivity].
  pose proof (probe_database p w) as H.
  destruct (probe p w) as [[s|e] w1]; exact H.
Qed.

(** Every world the service can be in has a consistent database. *)
Lemma reachable_consistent w : reachable w -> db_consistent (database w).
Proof.
  induction 1 as [pool fs clk n | file w _ IH | id w _ IH | w _ IH
                 | w _ IH | fs w _ IH].
  - exact empty_database_consistent.
  - exact (preserves_upload_receipt file w _ _ IH (surjective_pairing _)).
  - now rewrite get_receipt_database.
  - now rewrite health_check_database.
  - unfold lifespan_startup, create_pool, bind, driver_call, ret.
    destruct (hd None (faults w)); exact IH.
  - exact IH.
Qed.

(** * The claims *)

(** C6.  What the code does with an upload that is not an image.  It is
    refused before anything else happens, and the world, with its
    database, is left as it was.  A content type that is a string without
    the prefix "image/" gets the [HTTPException(400)]; a file part without
    a content type gets the [AttributeError] of [None.startswith], which
    nothing catches, and not the 400. *)
Theorem non_image_upload_outcome (file : UploadFile) (w : World) :
  is_image file = false ->
  snd (upload_receipt file w) = w
  /\ (forall ct, content_type file = Some ct ->
        upload_receipt file w
        = (Raise (HTTPException 400 (lit "이미지 파일만 업로드 가능합니다")), w))
  /\ (content_type file = None ->
        upload_receipt file w = (Raise missing_content_type, w)
        /\ fst (upload_receipt file w)
           <> Raise (HTTPException 400 (lit "이미지 파일만 업로드 가능합니다"))).
Proof.
  intros H. rewrite (upload_receipt_rejects file w H). unfold refusal.
  split; [reflexivity|]. split.
  - intros ct Hct. rewrite Hct. reflexivity.
  - intros Hnone. rewrite Hnone. split; [reflexivity|].
    cbn [fst]. unfold missing_content_type. discriminate.
Qed.

Lemma non_image_upload_outcome_witness :
  is_image untyped_part = false
  /\ upload_receipt untyped_part
       (world_with (Some ConnectionPool) empty_database [])
     = (Raise missing_content_type,
        world_with (Some ConnectionPool) empty_database [])
  /\ fst (upload_receipt untyped_part
            (world_with (Some ConnectionPool) empty_database []))
     <> Raise (HTTPException 400 (lit "이미지 파일만 업로드 가능합니다")).
Proof.
  split; [reflexivity|].
  exact (proj2 (proj2 (non_image_upload_outcome untyped_part
                         (world_with (Some ConnectionPool) empty_database [])
                         eq_refl)) eq_refl).
Defined.

(** C5, as the spec has it, fails: the response carries no mark of where
    the receipt ended up.  Two uploads answer with the same response, field
    by field; after the first the receipt and both items are stored and
    read back, after the second the tables are empty.  So whatever is read
    off a response as its tag has the same value for a stored and for an
    unstored receipt. *)
Lemma response_does_not_tell_stored :
  let stored := world_with (Some ConnectionPool) empty_database
                  [None; None; None; None; Some (lit "connection reset")] in
  let unstored := world_with (Some ConnectionPool) empty_database
                    [Some (lit "connection refused")] in
  fst (upload_receipt receipt_jpg stored)
  = Return (response (clock_jan15 0) (clock_jan15 1) msg_save_failed)
  /\ fst (upload_receipt receipt_jpg unstored)
     = Return (response (clock_jan15 0) (clock_jan15 1) msg_save_failed)
  /\ fst (get_receipt (new_receipt_id (clock_jan15 0))
            (snd (upload_receipt receipt_jpg stored)))
     = Return (detail_of_rows
                 (new_receipt_row (clock_jan15 0) (clock_jan15 1))
                 (new_item_rows (clock_jan15 0)))
  /\ database (snd (upload_receipt receipt_jpg unstored)) = empty_database
  /\ forall (T : Type) (tag : ReceiptResponse.t -> T) r1 r2,
       fst (upload_receipt receipt_jpg stored) = Return r1 ->
       fst (upload_receipt receipt_jpg unstored) = Return r2 ->
       tag r1 = tag r2.
Proof.
  cbv zeta.
  assert (H1 :
    fst (upload_receipt receipt_jpg
           (world_with (Some ConnectionPool) empty_database
              [None; None; None; None; Some (lit "connection reset")]))
    = Return (response (clock_jan15 0) (clock_jan15 1) msg_save_failed))
    by (vm_compute; reflexivity).
  assert (H2 :
    fst (upload_receipt receipt_jpg
           (world_with (Some ConnectionPool) empty_database
              [Some (lit "connection refused")]))
    = Return (response (clock_jan15 0) (clock_jan15 1) msg_save_failed))
    by (vm_compute; reflexivity).
  split; [exact H1|]. split; [exact H2|].
  split; [vm_compute; reflexivity|].
  split; [vm_compute; reflexivity|].
  intros T tag r1 r2 E1 E2. rewrite H1 in E1. rewrite H2 in E2.
  injection E1 as <-. injection E2 as <-. reflexivity.
Qed.

(** C5, amended.  An upload with an image content type returns a response
    whose identifier is [RCP-] followed by the first clock reading to the
    second, YYYYMMDD-HHMMSS.  The response has no tag; its message is one
    of three fixed texts.  The message of a successful save is returned
    only when there is a pool and the receipt row and both item rows were
    appended; the dummy-mode message only when there is no pool, and then
    nothing is written; the save-failed message only when there is a pool,
    and it leaves open what was stored. *)
Theorem upload_identifier_format_and_message
    (file : UploadFile) (w : World) :
  let now1 := clock w (ticks w) in
  let now2 := clock w (S (ticks w)) in
  is_image file = true ->
  clock_reading now1 = true ->
  exists resp w',
    upload_receipt file w = (Return resp, w')
    /\ ReceiptResponse.receipt_id resp
       = lit "RCP-"
         ++ pad4 (year now1) ++ pad2 (month now1) ++ pad2 (day now1)
         ++ lit "-"
         ++ pad2 (hour now1) ++ pad2 (minute now1) ++ pad2 (second now1)
    /\ is_receipt_id_format (ReceiptResponse.receipt_id resp) = true
    /\ (ReceiptResponse.message resp = msg_saved
        \/ ReceiptResponse.message resp = msg_save_failed
        \/ ReceiptResponse.message resp = msg_dummy_mode)
    /\ (ReceiptResponse.message resp = msg_saved ->
        db_pool w <> None
        /\ database w'
           = add_items (new_item_rows now1)
               (add_receipt (new_receipt_row now1 now2) (database w)))
    /\ (ReceiptResponse.message resp = msg_dummy_mode ->
        db_pool w = None /\ database w' = database w)
    /\ (ReceiptResponse.message resp = msg_save_failed -> db_pool w <> None).
Proof.
  intros now1 now2 Himg _.
  destruct (upload_receipt_cases file w Himg) as (m & w' & Hrun & Hcases).
  fold now1 now2 in Hrun, Hcases.
  destruct messages_distinct as (Hsf & Hsd & Hfd).
  eexists; exists w'. split; [exact Hrun|].
  cbn [ReceiptResponse.receipt_id ReceiptResponse.message response].
  split; [unfold new_receipt_id; now rewrite strftime_receipt_id|].
  split; [apply new_receipt_id_format|].
  destruct Hcases as [(-> & Hp & _ & _ & ->)
                     | [(-> & Hp & _) | (-> & Hp & ->)]].
  - split; [now left|]. split; [|split]; intros E.
    + split; [exact Hp | reflexivity].
    + congruence.
    + congruence.
  - split; [right; now left|]. split; [|split]; intros E.
    + congruence.
    + congruence.
    + exact Hp.
  - split; [right; now right|]. split; [|split]; intros E.
    + congruence.
    + split; [exact Hp | reflexivity].
    + congruence.
Qed.

Lemma upload_identifier_format_and_message_witness :
  exists resp w',
    upload_receipt receipt_jpg
      (world_with (Some ConnectionPool) empty_database []) = (Return resp, w')
    /\ ReceiptResponse.receipt_id resp = lit "RCP-20240115-093000"
    /\ is_receipt_id_format (ReceiptResponse.receipt_id resp) = true.
Proof.
  destruct (upload_identifier_format_and_message receipt_jpg
              (world_with (Some ConnectionPool) empty_database [])
              eq_refl eq_refl)
    as (resp & w' & Hrun & Hid & Hfmt & _).
  exists resp, w'. split; [exact Hrun|]. split; [exact Hid | exact Hfmt].
Defined.

(** C9.  The response of an accepted upload does not depend on the file:
    two uploads that read the same two clock values agree on identifier,
    merchant name, total amount, date and status, whatever their files and
    whatever else differs between their worlds; in one and the same world
    the whole outcome is the same. *)
Theorem upload_result_independent_of_file
    (f1 f2 : UploadFile) (w1 w2 w1' w2' : World)
    (r1 r2 : ReceiptResponse.t) :
  is_image f1 = true -> is_image f2 = true ->
  clock w1 (ticks w1) = clock w2 (ticks w2) ->
  clock w1 (S (ticks w1)) = clock w2 (S (ticks w2)) ->
  upload_receipt f1 w1 = (Return r1, w1') ->
  upload_receipt f2 w2 = (Return r2, w2') ->
  ReceiptResponse.receipt_id r1 = ReceiptResponse.receipt_id r2
  /\ ReceiptResponse.merchant_name r1 = ReceiptResponse.merchant_name r2
  /\ ReceiptResponse.total_amount r1 = ReceiptResponse.total_amount r2
  /\ ReceiptResponse.date r1 = ReceiptResponse.date r2
  /\ ReceiptResponse.status r1 = ReceiptResponse.status r2
  /\ upload_receipt f1 w1 = upload_receipt f2 w1.
Proof.
  intros H1 H2 Hc1 Hc2 Hr1 Hr2.
  assert (Hsame : upload_receipt f1 w1 = upload_receipt f2 w1)
    by now rewrite !upload_receipt_run.
  destruct (upload_receipt_cases f1 w1 H1) as (m1 & v1 & E1 & _).
  destruct (upload_receipt_cases f2 w2 H2) as (m2 & v2 & E2 & _).
  rewrite E1 in Hr1. rewrite E2 in Hr2.
  injection Hr1 as <- _. injection Hr2 as <- _.
  cbn [response ReceiptResponse.receipt_id ReceiptResponse.merchant_name
       ReceiptResponse.total_amount ReceiptResponse.date
       ReceiptResponse.status].
  rewrite Hc1, Hc2. repeat split; try reflexivity. exact Hsame.
Qed.

Lemma upload_result_independent_of_file_witness :
  exists r1 r2,
    fst (upload_receipt receipt_jpg
           (world_with (Some ConnectionPool) empty_database [])) = Return r1
    /\ fst (upload_receipt scan_png
              (world_with None empty_database [])) = Return r2
    /\ ReceiptResponse.receipt_id r1 = ReceiptResponse.receipt_id r2
    /\ ReceiptResponse.date r1 = ReceiptResponse.date r2.
Proof.
  eexists; eexists.
  split; [vm_compute; reflexivity|]. split; [vm_compute; reflexivity|].
  pose proof (upload_result_independent_of_file receipt_jpg scan_png
    (world_with (Some ConnectionPool) empty_database [])
    (world_with None empty_database []) _ _ _ _
    eq_refl eq_refl eq_refl eq_refl eq_refl eq_refl) as H.
  split; [exact (proj1 H) | exact (proj1 (proj2 (proj2 (proj2 H))))].
Defined.

(** C7.  [health_check] always answers; its status is "healthy" exactly
    when its database field is "connected" and is "degraded" otherwise;
    and when the probe raises, the database field is "error: " followed by
    the first 50 characters, at most, of the exception's text. *)
Theorem health_check_status (w : World) :
  exists h w',
    health_check w = (Return h, w')
    /\ (HealthResponse.status h = lit "healthy"
        <-> HealthResponse.database h = lit "connected")
    /\ (HealthResponse.status h = lit "healthy"
        \/ HealthResponse.status h = lit "degraded")
    /\ (forall p e w1,
          db_pool w = Some p -> probe p w = (Raise e, w1) ->
          HealthResponse.database h
          = lit "error: " ++ slice_to 50 (str_exn e)
          /\ List.length (slice_to 50 (str_exn e)) <= 50
          /\ List.length (HealthResponse.database h) <= 57
          /\ HealthResponse.status h = lit "degraded").
Proof.
  rewrite health_check_run.
  destruct (db_pool w) as [p|] eqn:Hp.
  - destruct (probe p w) as [[s|e] w1] eqn:Hprobe.
    + eexists; eexists. split; [reflexivity|].
      split; [apply health_status_iff|].
      split; [apply health_status_two_valued|].
      intros p' e' w1' Hp'. injection Hp' as <-. rewrite Hprobe.
      discriminate.
    + eexists; eexists. split; [reflexivity|].
      split; [apply health_status_iff|].
      split; [apply health_status_two_valued|].
      intros p' e' w1' Hp'. injection Hp' as <-. rewrite Hprobe.
      intros H; injection H as <- <-.
      cbn [health_response HealthResponse.database HealthResponse.status].
      assert (Hlen : List.length (slice_to 50 (str_exn e)) <= 50)
        by apply firstn_le_length.
      split; [reflexivity|]. split; [exact Hlen|]. split.
      * rewrite length_app.
        change (List.length (lit "error: ")) with 7. lia.
      * now rewrite error_status_not_connected.
  - eexists; eexists. split; [reflexivity|].
    split; [apply health_status_iff|].
    split; [apply health_status_two_valued|].
    intros p e w1 Hp'. discriminate.
Qed.

(** C8, as the spec has it, fails: the merchant name of the response is
    not "Sample Merchant". *)
Lemma sample_merchant_counterexample :
  exists resp,
    fst (upload_receipt receipt_jpg
           (world_with (Some ConnectionPool) empty_database []))
    = Return resp
    /\ ReceiptResponse.merchant_name resp <> lit "Sample Merchant".
Proof.
  eexists. split; [vm_compute; reflexivity|].
  cbn [ReceiptResponse.merchant_name]. apply eqb_neq. vm_compute.
  reflexivity.
Qed.

(** C8, amended.  An accepted upload answers with the fixed analysis:
    merchant name "스타벅스 강남점", total amount 15000.0, status
    "processed" and an identifier of the shape RCP-YYYYMMDD-HHMMSS.  The
    response carries no items; the two items of the source go to the
    database only, and when the save succeeds they are appended to
    [receipt_items] in order.  No step compares the total with the items:
    the write block stores any receipt row with any item rows of its
    identifier, whatever their amounts. *)
Theorem upload_fixed_analysis (file : UploadFile) (w : World) :
  is_image file = true ->
  exists resp w',
    upload_receipt file w = (Return resp, w')
    /\ ReceiptResponse.merchant_name resp = lit "스타벅스 강남점"
    /\ ReceiptResponse.total_amount resp = 15000.0%Q
    /\ ReceiptResponse.status resp = lit "processed"
    /\ is_receipt_id_format (ReceiptResponse.receipt_id resp) = true
    /\ List.length items = 2
    /\ (ReceiptResponse.message resp = msg_saved ->
        receipt_items (database w')
        = receipt_items (database w)
          ++ map (fun '(item_name, quantity, price) =>
                    {| item_receipt_id := ReceiptResponse.receipt_id resp;
                       item_name := item_name;
                       item_quantity := quantity;
                       item_price := price |}) items)
    /\ (forall p r rows db t w0,
          Forall (fun i => item_receipt_id i = row_receipt_id r) rows ->
          unique_violation r db = false ->
          (forall j, j < 3 + List.length rows -> fault j w0 = None) ->
          save_block p r rows (reached db 0 t w0)
          = (Return msg_saved,
             reached (add_items rows (add_receipt r db))
                     (3 + List.length rows) t w0)).
Proof.
  intros Himg.
  destruct (upload_receipt_cases file w Himg) as (m & w' & Hrun & Hcases).
  eexists; exists w'. split; [exact Hrun|].
  cbn [response ReceiptResponse.merchant_name ReceiptResponse.total_amount
       ReceiptResponse.status ReceiptResponse.receipt_id
       ReceiptResponse.message].
  repeat (split; [reflexivity|]).
  split; [apply new_receipt_id_format|].
  split; [reflexivity|].
  split.
  - intros ->.
    destruct messages_distinct as (Hsf & Hsd & _).
    destruct Hcases as [(_ & _ & _ & _ & ->) | [(E & _) | (E & _)]];
      [|congruence|congruence].
    cbn [database reached]. now rewrite add_items_receipt_items.
  - intros p r rows db t w0 Hrows Hu Hok.
    exact (save_block_saved p r rows Hrows db t w0 Hu Hok).
Qed.

Lemma upload_fixed_analysis_witness :
  exists resp w',
    upload_receipt receipt_jpg
      (world_with (Some ConnectionPool) empty_database []) = (Return resp, w')
    /\ ReceiptResponse.merchant_name resp = lit "스타벅스 강남점"
    /\ ReceiptResponse.total_amount resp = 15000.0%Q.
Proof.
  destruct (upload_fixed_analysis receipt_jpg
              (world_with (Some ConnectionPool) empty_database []) eq_refl)
    as (resp & w' & Hrun & Hm & Ht & _).
  exists resp, w'. split; [exact Hrun|]. split; [exact Hm | exact Ht].
Defined.

(** C3, as the spec has it, fails: two uploads whose clock readings fall in
    the same second (here a few microseconds apart) get the same
    identifier. *)
Lemma same_second_same_identifier :
  exists r1 r2,
    fst (intakes [receipt_jpg; scan_png]
           (world_with (Some ConnectionPool) empty_database []))
    = Return [r1; r2]
    /\ ReceiptResponse.receipt_id r1 = ReceiptResponse.receipt_id r2
    /\ ~ NoDup (map ReceiptResponse.receipt_id [r1; r2]).
Proof.
  eexists; eexists. split; [vm_compute; reflexivity|].
  split; [reflexivity|].
  intros H. inversion H as [|x l Hnotin _]. apply Hnotin. now left.
Qed.

(** C3, amended.  The identifier is a function of the clock reading cut to
    the second: two uploads, in whatever worlds, return the same
    identifier exactly when their readings agree in year, month, day,
    hour, minute and second.  Uploads in different seconds get distinct
    identifiers; uploads in the same second get the same one. *)
Theorem identifiers_equal_iff_same_second
    (f1 f2 : UploadFile) (w1 w2 w1' w2' : World)
    (r1 r2 : ReceiptResponse.t) :
  clock_reading (clock w1 (ticks w1)) = true ->
  clock_reading (clock w2 (ticks w2)) = true ->
  upload_receipt f1 w1 = (Return r1, w1') ->
  upload_receipt f2 w2 = (Return r2, w2') ->
  (ReceiptResponse.receipt_id r1 = ReceiptResponse.receipt_id r2
   <-> to_second (clock w1 (ticks w1)) = to_second (clock w2 (ticks w2))).
Proof.
  intros V1 V2 Hr1 Hr2.
  destruct (is_image f1) eqn:H1;
    [|rewrite (upload_receipt_rejects f1 w1 H1) in Hr1; discriminate].
  destruct (is_image f2) eqn:H2;
    [|rewrite (upload_receipt_rejects f2 w2 H2) in Hr2; discriminate].
  destruct (upload_receipt_cases f1 w1 H1) as (m1 & v1 & E1 & _).
  destruct (upload_receipt_cases f2 w2 H2) as (m2 & v2 & E2 & _).
  rewrite E1 in Hr1. rewrite E2 in Hr2.
  injection Hr1 as <- _. injection Hr2 as <- _.
  cbn [response ReceiptResponse.receipt_id].
  now apply new_receipt_id_eq_iff.
Qed.

Lemma identifiers_equal_iff_same_second_witness :
  exists r1 r2,
    fst (upload_receipt receipt_jpg
           (world_with (Some ConnectionPool) empty_database [])) = Return r1
    /\ fst (upload_receipt scan_png
              (world_with None empty_database [])) = Return r2
    /\ (ReceiptResponse.receipt_id r1 = ReceiptResponse.receipt_id r2
        <-> to_second (clock_jan15 0) = to_second (clock_jan15 0)).
Proof.
  eexists; eexists.
  split; [vm_compute; reflexivity|]. split; [vm_compute; reflexivity|].
  exact (identifiers_equal_iff_same_second receipt_jpg scan_png
    (world_with (Some ConnectionPool) empty_database [])
    (world_with None empty_database []) _ _ _ _
    eq_refl eq_refl eq_refl eq_refl).
Defined.

Lemma Forall_prefix {A} (P : A -> Prop) (n : nat) (l : list A) :
  Forall P l -> Forall P (firstn n l).
Proof.
  intros H. revert n. induction H as [|x l Hx _ IH]; intros [|n];
    cbn [firstn]; constructor; auto.
Qed.

(** What [get_receipt] answers when storage is available and the receipt
    row is in the table. *)
Lemma get_receipt_found id w r :
  db_pool w <> None ->
  (forall k, k < 4 -> fault k w = None) ->
  select_receipt id (database w) = Some r ->
  get_receipt id w
  = (Return (detail_of_rows r (select_items id (database w))),
     reached (database w) 4 0 w).
Proof.
  intros Hp Hok Hsel. rewrite get_receipt_run. cbv zeta.
  destruct (db_pool w); [|congruence].
  rewrite (Hok 0), (Hok 1), (Hok 2), (Hok 3), Hsel by lia. reflexivity.
Qed.

(** C1, as the spec has it, fails: with the first item insert failing, the
    receipt row stays in the table and [get_receipt] of its identifier
    answers with the receipt (and no items), not with 404. *)
Lemma partial_write_counterexample :
  let w := world_with (Some ConnectionPool) empty_database
             [None; None; Some (lit "connection lost")] in
  let w1 := snd (upload_receipt receipt_jpg w) in
  fault 2 w = Some (lit "connection lost")
  /\ fst (upload_receipt receipt_jpg w)
     = Return (response (clock_jan15 0) (clock_jan15 1) msg_save_failed)
  /\ receipts (database w1)
     = [new_receipt_row (clock_jan15 0) (clock_jan15 1)]
  /\ receipt_items (database w1) = []
  /\ fst (get_receipt (new_receipt_id (clock_jan15 0)) w1)
     = Return (detail_of_rows
                 (new_receipt_row (clock_jan15 0) (clock_jan15 1)) [])
  /\ fst (get_receipt (new_receipt_id (clock_jan15 0)) w1) <> Raise not_found.
Proof.
  cbv zeta.
  assert (Hget :
    fst (get_receipt (new_receipt_id (clock_jan15 0))
           (snd (upload_receipt receipt_jpg
                   (world_with (Some ConnectionPool) empty_database
                      [None; None; Some (lit "connection lost")]))))
    = Return (detail_of_rows
                (new_receipt_row (clock_jan15 0) (clock_jan15 1)) []))
    by (vm_compute; reflexivity).
  split; [vm_compute; reflexivity|].
  split; [vm_compute; reflexivity|].
  split; [vm_compute; reflexivity|].
  split; [vm_compute; reflexivity|].
  split; [exact Hget|].
  rewrite Hget. discriminate.
Qed.

(** C1, amended.  The receipt insert and the item inserts of an upload are
    separate statements, each committed when it returns; no transaction
    joins them.  When the receipt insert went through and the insert of
    item [j] fails, the response reports a failed save, yet the receipt
    row and the [j] items before the failing one are in the database, and
    a later [get_receipt] of the identifier, with storage available,
    answers with that receipt and those items instead of 404. *)
Theorem partial_write_persists
    (file : UploadFile) (w : World) (p : Pool) (j : nat) (text : pystr) :
  let now1 := clock w (ticks w) in
  let now2 := clock w (S (ticks w)) in
  let row := new_receipt_row now1 now2 in
  let rows := new_item_rows now1 in
  is_image file = true ->
  db_pool w = Some p ->
  db_consistent (database w) ->
  unique_violation row (database w) = false ->
  fault 0 w = None -> fault 1 w = None ->
  j < List.length rows ->
  (forall j', j' < j -> fault (2 + j') w = None) ->
  fault (2 + j) w = Some text ->
  exists w',
    upload_receipt file w = (Return (response now1 now2 msg_save_failed), w')
    /\ database w'
       = add_items (firstn j rows) (add_receipt row (database w))
    /\ forall w2,
         database w2 = database w' ->
         db_pool w2 <> None ->
         (forall k, k < 4 -> fault k w2 = None) ->
         exists w3,
           get_receipt (new_receipt_id now1) w2
           = (Return (detail_of_rows row (firstn j rows)), w3).
Proof.
  intros now1 now2 row rows Himg Hp Hcons Hu H0 H1 Hj Hbefore Hat.
  pose proof (new_item_rows_of_receipt now1 now2) as Hrows.
  fold row rows in Hrows.
  destruct (save_block_item_fails p row rows Hrows (database w) 2 w j text
              Hu H0 H1 Hj Hbefore Hat) as [e He].
  eexists. split; [|split].
  - rewrite (upload_receipt_run file w Himg). cbv zeta.
    fold now1 now2 row rows. rewrite Hp, He. reflexivity.
  - reflexivity.
  - intros w2 Hdb Hp2 Hok. cbn [database reached] in Hdb.
    eexists.
    rewrite (get_receipt_found (new_receipt_id now1) w2 row Hp2 Hok).
    + rewrite Hdb.
      change (new_receipt_id now1) with (row_receipt_id row).
      rewrite (select_items_added row (firstn j rows) (database w) Hcons Hu
                 (Forall_prefix _ j rows Hrows)).
      reflexivity.
    + rewrite Hdb. exact (select_receipt_added row (firstn j rows) _ Hu).
Qed.

Lemma partial_write_persists_witness :
  exists w',
    upload_receipt receipt_jpg
      (world_with (Some ConnectionPool) empty_database
         [None; None; Some (lit "connection lost")])
    = (Return (response (clock_jan15 0) (clock_jan15 1) msg_save_failed), w')
    /\ database w'
       = add_receipt (new_receipt_row (clock_jan15 0) (clock_jan15 1))
           empty_database.
Proof.
  destruct (partial_write_persists receipt_jpg
              (world_with (Some ConnectionPool) empty_database
                 [None; None; Some (lit "connection lost")])
              ConnectionPool 0 (lit "connection lost")
              eq_refl eq_refl empty_database_consistent eq_refl
              eq_refl eq_refl
              (le_S _ _ (le_n 1))
              (fun j' (H : j' < 0) => match Nat.nlt_0_r j' H with end)
              eq_refl)
    as (w' & Hrun & Hdb & _).
  exists w'. split; [exact Hrun | exact Hdb].
Defined.



(** C10.  In degraded mode, [get_receipt] returns the placeholder for every
    identifier, created or not: its [receipt_id] is the requested
    identifier, none of its fields is read from the database, and the
    database is left as it was. *)
Theorem degraded_get_receipt_echoes_id (id : pystr) (w : World) :
  degraded id w ->
  exists d w',
    get_receipt id w = (Return d, w')
    /\ d = dummy_detail id (clock w (ticks w))
    /\ ReceiptDetail.receipt_id d = id
    /\ ReceiptDetail.merchant_name d = lit "스타벅스 강남점 (더미)"
    /\ database w' = database w.
Proof.
  intros Hdeg. rewrite get_receipt_run. cbv zeta.
  destruct Hdeg as [Hp | (p & text & w1 & Hp & Hblock)]; rewrite Hp.
  { eexists; eexists. split; [reflexivity|]. repeat split. }
  rewrite (run_from_start (fetch_block p id) w), fetch_block_run in Hblock.
  destruct (fault 0 w).
  { eexists; eexists. split; [reflexivity|]. repeat split. }
  destruct (fault 1 w).
  { eexists; eexists. split; [reflexivity|]. repeat split. }
  destruct (select_receipt id (database w)).
  - destruct (fault 2 w).
    { eexists; eexists. split; [reflexivity|]. repeat split. }
    destruct (fault 3 w); [|discriminate].
    eexists; eexists. split; [reflexivity|]. repeat split.
  - destruct (fault 2 w); [|discriminate].
    eexists; eexists. split; [reflexivity|]. repeat split.
Qed.

Lemma degraded_get_receipt_echoes_id_witness :
  exists d w',
    get_receipt (lit "RCP-19990101-000000")
      (world_with None empty_database []) = (Return d, w')
    /\ ReceiptDetail.receipt_id d = lit "RCP-19990101-000000".
Proof.
  destruct (degraded_get_receipt_echoes_id (lit "RCP-19990101-000000")
              (world_with None empty_database []) (or_introl eq_refl))
    as (d & w' & Hrun & _ & Hid & _).
  exists d, w'. split; [exact Hrun | exact Hid].
Defined.

(** C4.  Everything that leaves the two endpoints.  Three exceptions do:
    the 400 of an upload whose content type is a string without the
    prefix "image/", the 404 of [get_receipt], and the [AttributeError] of
    an upload whose file part has no content type, which the spec does not
    allow for.  Otherwise an accepted upload always returns, and with a
    missing pool or any failing driver call its message is one of the two
    degraded ones; [get_receipt] returns the placeholder when the pool is
    missing or a driver call fails, returns the stored receipt when
    storage answers every call and the row is there, and raises 404 only
    when the pool is there, the calls made went through and no row has the
    identifier. *)
Theorem failures_that_surface :
  (forall file w,
     (content_type file = None
      /\ upload_receipt file w = (Raise missing_content_type, w)
      /\ missing_content_type <> invalid_input
      /\ missing_content_type <> not_found)
     \/ (is_image file = false
         /\ (exists ct, content_type file = Some ct)
         /\ upload_receipt file w = (Raise invalid_input, w))
     \/ (is_image file = true
         /\ exists resp w',
              upload_receipt file w = (Return resp, w')
              /\ ((ReceiptResponse.message resp = msg_saved
                   /\ db_pool w <> None
                   /\ forall j, j < 5 -> fault j w = None)
                  \/ ReceiptResponse.message resp = msg_save_failed
                  \/ ReceiptResponse.message resp = msg_dummy_mode)
              /\ (db_pool w = None \/ (exists j, j < 5 /\ fault j w <> None)
                  -> ReceiptResponse.message resp <> msg_saved)))
  /\ (forall id w,
        (fst (get_receipt id w)
         = Return (dummy_detail id (clock w (ticks w)))
         /\ (db_pool w = None \/ exists j, j < 4 /\ fault j w <> None))
        \/ (exists r,
              fst (get_receipt id w)
              = Return (detail_of_rows r (select_items id (database w)))
              /\ db_pool w <> None
              /\ select_receipt id (database w) = Some r
              /\ forall j, j < 4 -> fault j w = None)
        \/ (fst (get_receipt id w) = Raise not_found
            /\ db_pool w <> None
            /\ select_receipt id (database w) = None
            /\ forall j, j < 3 -> fault j w = None)).
Proof.
  split.
  - intros file w. destruct (is_image file) eqn:Himg.
    2:{ pose proof (upload_receipt_rejects file w Himg) as Hrej.
        unfold refusal in Hrej.
        destruct (content_type file) as [ct|] eqn:Hct.
        - right; left. split; [reflexivity|]. split; [now exists ct|].
          exact Hrej.
        - left. split; [reflexivity|]. split; [exact Hrej|].
          split; unfold missing_content_type; discriminate. }
    right; right. split; [reflexivity|].
    destruct (upload_receipt_cases file w Himg) as (m & w' & Hrun & Hcases).
    destruct messages_distinct as (Hsf & Hsd & _).
    eexists; exists w'. split; [exact Hrun|].
    cbn [response ReceiptResponse.message].
    destruct Hcases as [(-> & Hp & _ & Hok & _)
                       | [(-> & Hp & _) | (-> & Hp & _)]].
    + split; [left; split; [reflexivity | split; assumption]|].
      intros [Hnone | (j & Hj & Hbad)]; [congruence|].
      exfalso. apply Hbad. now apply Hok.
    + split; [right; now left|]. intros _. congruence.
    + split; [right; now right|]. intros _. congruence.
  - intros id w. rewrite get_receipt_run. cbv zeta.
    destruct (db_pool w) as [p|] eqn:Hp.
    2:{ left. split; [reflexivity | now left]. }
    destruct (fault 0 w) as [t0|] eqn:H0.
    { left. split; [reflexivity|]. right. exists 0. split; [lia|congruence]. }
    destruct (fault 1 w) as [t1|] eqn:H1.
    { left. split; [reflexivity|]. right. exists 1. split; [lia|congruence]. }
    destruct (fault 2 w) as [t2|] eqn:H2.
    { left.
      split; [destruct (select_receipt id (database w)); reflexivity|].
      right. exists 2. split; [lia|congruence]. }
    destruct (select_receipt id (database w)) as [r|] eqn:Hsel.
    + destruct (fault 3 w) as [t3|] eqn:H3.
      { left. split; [reflexivity|]. right. exists 3.
        split; [lia|congruence]. }
      right; left. exists r. split; [reflexivity|].
      split; [discriminate|]. split; [reflexivity|].
      intros j Hj. destruct j as [|[|[|[|j]]]]; try assumption. lia.
    + right; right. split; [reflexivity|].
      split; [discriminate|]. split; [reflexivity|].
      intros j Hj. destruct j as [|[|[|j]]]; try assumption. lia.
Qed.

(** * Further properties of the service *)

(** ** Content types *)

Lemma startswith_iff (s p : pystr) :
  startswith s p = true <-> exists rest, s = p ++ rest.
Proof.
  revert s. induction p as [|c p IH]; intros s.
  - split; [intros _; now exists s | intros _; destruct s; reflexivity].
  - destruct s as [|d s]; cbn [startswith app].
    + split; [discriminate | intros [rest H]; discriminate].
    + rewrite andb_true_iff, N.eqb_eq, IH. split.
      * intros [-> [rest ->]]. now exists rest.
      * intros [rest H]. injection H as -> ->. split; [reflexivity|].
        now exists rest.
Qed.

(** X1.  An upload is accepted exactly when its content type is a string
    that is "image/" followed by anything, the empty subtype included; the
    test is on the characters as they are.  Any other string is refused
    with the 400, and a file part without a content type ends in the
    [AttributeError]; both leave the world as it was. *)
Theorem upload_accepted_iff_image_prefix (file : UploadFile) (w : World) :
  ((exists resp w', upload_receipt file w = (Return resp, w'))
   <-> exists rest, content_type file = Some (lit "image/" ++ rest))
  /\ ((exists rest, content_type file = Some (lit "image/" ++ rest))
      \/ ((exists ct, content_type file = Some ct)
          /\ upload_receipt file w = (Raise invalid_input, w))
      \/ (content_type file = None
          /\ upload_receipt file w = (Raise missing_content_type, w))).
Proof.
  assert (Hiff : is_image file = true
                 <-> exists rest, content_type file = Some (lit "image/" ++ rest)).
  { unfold is_image. destruct (content_type file) as [ct|].
    - rewrite startswith_iff. split.
      + intros [rest ->]. now exists rest.
      + intros [rest H]. injection H as ->. now exists rest.
    - split; [discriminate | intros [rest H]; discriminate]. }
  rewrite <- Hiff.
  destruct (is_image file) eqn:Himg.
  - split; [|now left]. split; [reflexivity|]. intros _.
    destruct (upload_receipt_cases file w Himg) as (m & w' & Hrun & _).
    eauto.
  - pose proof (upload_receipt_rejects file w Himg) as Hrej.
    split.
    + split; [|discriminate].
      intros (resp & w' & Hrun). rewrite Hrej in Hrun. discriminate.
    + right. unfold refusal in Hrej.
      destruct (content_type file) as [ct|] eqn:Hct.
      * left. split; [now exists ct | exact Hrej].
      * right. split; [reflexivity | exact Hrej].
Qed.

(** ** Health, readiness, start-up *)

Lemma probe_run p db t w :
  probe p (reached db 0 t w)
  = match fault 0 w with
    | Some text => (Raise (DriverError text), reached db 1 t w)
    | None =>
        (match fault 1 w with
         | Some text =>
             match fault 2 w with
             | Some text' => Raise (DriverError text')
             | None => Raise (DriverError text)
             end
         | None =>
             match fault 2 w with
             | Some text' => Raise (DriverError text')
             | None => Return (lit "connected")
             end
         end, reached db 3 t w)
    end.
Proof.
  unfold probe. rewrite with_acquire_reached.
  destruct (fault 0 w); [reflexivity|].
  unfold fetchval_select_1, bind, release, ret.
  rewrite driver_call_reached.
  destruct (fault 1 w); cbv beta iota; rewrite driver_call_reached;
    destruct (fault 2 w); reflexivity.
Qed.

(** The database status [health_check] reports, by the pool and the three
    driver calls of the probe: acquire, SELECT 1, release. *)
Lemma health_check_explicit w :
  health_check w
  = let now := clock w (ticks w) in
    let error text := lit "error: " ++ slice_to 50 text in
    match db_pool w with
    | None =>
        (Return (health_response (lit "not configured") now),
         reached (database w) 0 1 w)
    | Some p =>
        match fault 0 w with
        | Some text =>
            (Return (health_response (error text) now),
             reached (database w) 1 1 w)
        | None =>
            (Return (health_response
                       match fault 1 w, fault 2 w with
                       | _, Some text' => error text'
                       | Some text, None => error text
                       | None, None => lit "connected"
                       end now),
             reached (database w) 3 1 w)
        end
    end.
Proof.
  rewrite health_check_run. cbv zeta.
  destruct (db_pool w) as [p|]; [|reflexivity].
  rewrite (run_from_start (probe p) w), probe_run.
  destruct (fault 0 w); [reflexivity|].
  destruct (fault 1 w); destruct (fault 2 w); reflexivity.
Qed.

Lemma error_status_not_configured reason :
  lit "error: " ++ reason <> lit "not configured".
Proof. apply eqb_neq. reflexivity. Qed.

(** X2.  [health_check] never raises and never writes: the tables and the pool
    are as before.  Its database field is "not configured" exactly when
    there is no pool; otherwise it is "connected" or "error: " followed by
    at most 50 characters. *)
Theorem health_check_read_only (w : World) :
  exists h w',
    health_check w = (Return h, w')
    /\ database w' = database w
    /\ db_pool w' = db_pool w
    /\ (HealthResponse.database h = lit "not configured"
        <-> db_pool w = None)
    /\ (HealthResponse.database h = lit "not configured"
        \/ HealthResponse.database h = lit "connected"
        \/ exists reason,
             HealthResponse.database h = lit "error: " ++ reason
             /\ List.length reason <= 50)
    /\ HealthResponse.timestamp h = datetime_isoformat (clock w (ticks w))
    /\ HealthResponse.version h = lit "1.0.0".
Proof.
  rewrite health_check_explicit. cbv zeta.
  assert (Hnc : lit "connected" <> lit "not configured")
    by (apply eqb_neq; reflexivity).
  assert (Herr : forall text,
    exists reason,
      lit "error: " ++ slice_to 50 text = lit "error: " ++ reason
      /\ List.length reason <= 50).
  { intros text. exists (slice_to 50 text).
    split; [reflexivity | apply firstn_le_length]. }
  destruct (db_pool w) as [p|] eqn:Hp.
  2:{ eexists; eexists. split; [reflexivity|].
      cbn [health_response HealthResponse.database HealthResponse.timestamp
           HealthResponse.version database db_pool reached].
      repeat split; auto. }
  destruct (fault 0 w) as [t0|].
  { eexists; eexists. split; [reflexivity|].
    cbn [health_response HealthResponse.database HealthResponse.timestamp
         HealthResponse.version database db_pool reached].
    split; [reflexivity|]. split; [exact Hp|].
    split; [split; [intros H; now apply error_status_not_configured in H
                   | discriminate]|].
    split; [right; right; apply Herr|]. split; reflexivity. }
  eexists; eexists. split; [reflexivity|].
  cbn [health_response HealthResponse.database HealthResponse.timestamp
       HealthResponse.version database db_pool reached].
  split; [reflexivity|]. split; [exact Hp|].
  split.
  - split; [|discriminate]. intros H. exfalso.
    destruct (fault 1 w); destruct (fault 2 w);
      try (now apply error_status_not_configured in H).
    now apply Hnc.
  - split; [|split; reflexivity].
    destruct (fault 1 w); destruct (fault 2 w);
      try (right; right; apply Herr).
    right; left; reflexivity.
Qed.

(** X3.  [health_check] reports "healthy" exactly when there is a pool and the
    three driver calls of the probe all succeed: a failure to release the
    connection after a successful SELECT 1 is reported as an error too. *)
Theorem health_healthy_iff_probe_succeeds
    (w w' : World) (h : HealthResponse.t) :
  health_check w = (Return h, w') ->
  (HealthResponse.status h = lit "healthy"
   <-> db_pool w <> None /\ forall j, j < 3 -> fault j w = None).
Proof.
  intros Hrun. rewrite health_check_explicit in Hrun. cbv zeta in Hrun.
  assert (Hdeg : lit "degraded" <> lit "healthy")
    by (apply eqb_neq; reflexivity).
  assert (Hnot : forall st now,
            PyStr.eqb st (lit "connected") = false ->
            HealthResponse.status (health_response st now) <> lit "healthy").
  { intros st now E. cbn [health_response HealthResponse.status].
    rewrite E. exact Hdeg. }
  destruct (db_pool w) as [p|] eqn:Hp.
  2:{ injection Hrun as <- _. split; [|intros [H _]; congruence].
      intros H. exfalso. revert H. apply Hnot. reflexivity. }
  destruct (fault 0 w) as [t0|] eqn:H0.
  { injection Hrun as <- _. split.
    - intros H. exfalso. revert H. apply Hnot.
      apply error_status_not_connected.
    - intros [_ Hok]. rewrite (Hok 0) in H0 by lia. discriminate. }
  destruct (fault 1 w) as [t1|] eqn:H1; destruct (fault 2 w) as [t2|] eqn:H2;
    injection Hrun as <- _.
  - split; [intros H; exfalso; revert H; apply Hnot;
            apply error_status_not_connected|].
    intros [_ Hok]. rewrite (Hok 1) in H1 by lia. discriminate.
  - split; [intros H; exfalso; revert H; apply Hnot;
            apply error_status_not_connected|].
    intros [_ Hok]. rewrite (Hok 1) in H1 by lia. discriminate.
  - split; [intros H; exfalso; revert H; apply Hnot;
            apply error_status_not_connected|].
    intros [_ Hok]. rewrite (Hok 2) in H2 by lia. discriminate.
  - split; [|reflexivity]. intros _. split; [discriminate|].
    intros j Hj. destruct j as [|[|[|j]]]; try assumption. lia.
Qed.

Lemma health_healthy_iff_probe_succeeds_witness :
  exists h,
    fst (health_check (world_with (Some ConnectionPool) empty_database
                         [None; None; Some (lit "connection is closed")]))
    = Return h
    /\ HealthResponse.status h <> lit "healthy".
Proof.
  eexists. split; [vm_compute; reflexivity|].
  intros H.
  apply (health_healthy_iff_probe_succeeds
           (world_with (Some ConnectionPool) empty_database
              [None; None; Some (lit "connection is closed")])
           _ _ (surjective_pairing _)) in H.
  destruct H as [_ Hok]. specialize (Hok 2 (le_n 3)). discriminate.
Defined.

(** X4.  Start-up never raises and never touches the tables; the pool is there
    afterwards exactly when [create_pool] succeeded. *)
Theorem lifespan_startup_sets_pool (w : World) :
  fst (lifespan_startup w) = Return tt
  /\ database (snd (lifespan_startup w)) = database w
  /\ (db_pool (snd (lifespan_startup w)) <> None <-> fault 0 w = None)
  /\ (db_pool (snd (lifespan_startup w)) = None <-> fault 0 w <> None).
Proof.
  unfold lifespan_startup, create_pool, bind, driver_call, ret.
  change (hd None (faults w)) with (fault 0 w).
  destruct (fault 0 w) as [text|];
    cbn [fst snd database db_pool set_pool set_faults].
  - split; [reflexivity|]. split; [reflexivity|]. split; split; intros H;
      congruence.
  - split; [reflexivity|]. split; [reflexivity|]. split; split; intros H;
      congruence.
Qed.

(** X5.  When [create_pool] fails at start-up the service runs without a
    database: an accepted upload answers with the dummy-mode message,
    [get_receipt] with the placeholder, [health_check] with "not
    configured" and "degraded", and shut-down has nothing to close; none
    of them calls the driver or changes the tables. *)
Theorem startup_failure_runs_in_dummy_mode (w : World) (text : pystr) :
  fault 0 w = Some text ->
  let w0 := snd (lifespan_startup w) in
  db_pool w0 = None
  /\ (forall file, is_image file = true ->
        exists resp w',
          upload_receipt file w0 = (Return resp, w')
          /\ ReceiptResponse.message resp = msg_dummy_mode
          /\ database w' = database w
          /\ faults w' = faults w0)
  /\ (forall id,
        exists w',
          get_receipt id w0
          = (Return (dummy_detail id (clock w (ticks w))), w')
          /\ database w' = database w
          /\ faults w' = faults w0)
  /\ (exists h w',
        health_check w0 = (Return h, w')
        /\ HealthResponse.database h = lit "not configured"
        /\ HealthResponse.status h = lit "degraded"
        /\ faults w' = faults w0)
  /\ lifespan_shutdown w0 = (Return tt, w0).
Proof.
  intros H0 w0.
  assert (Hw0 : w0 = set_pool None (set_faults (tl (faults w)) w)).
  { subst w0. unfold lifespan_startup, create_pool, bind, driver_call, ret.
    change (hd None (faults w)) with (fault 0 w). now rewrite H0. }
  assert (Hp : db_pool w0 = None) by now rewrite Hw0.
  assert (Hdb : database w0 = database w) by now rewrite Hw0.
  assert (Hclock : clock w0 (ticks w0) = clock w (ticks w))
    by now rewrite Hw0.
  split; [exact Hp|]. split; [|split; [|split]].
  - intros file Himg.
    rewrite (upload_receipt_run file w0 Himg). cbv zeta. rewrite Hp.
    eexists; eexists. split; [reflexivity|].
    cbn [response ReceiptResponse.message database faults reached Nat.iter].
    repeat split. exact Hdb.
  - intros id. rewrite get_receipt_run. cbv zeta. rewrite Hp, Hclock.
    eexists. split; [reflexivity|].
    cbn [database faults reached Nat.iter]. split; [exact Hdb|reflexivity].
  - rewrite health_check_explicit. cbv zeta. rewrite Hp.
    eexists; eexists. split; [reflexivity|].
    cbn [health_response HealthResponse.database HealthResponse.status
         faults reached Nat.iter].
    repeat split.
  - unfold lifespan_shutdown, bind, get_db_pool. rewrite Hp. reflexivity.
Qed.

Lemma startup_failure_runs_in_dummy_mode_witness :
  db_pool (snd (lifespan_startup
                  (world_with None empty_database
                     [Some (lit "connection refused")]))) = None.
Proof.
  exact (proj1 (startup_failure_runs_in_dummy_mode
                  (world_with None empty_database
                     [Some (lit "connection refused")])
                  (lit "connection refused") eq_refl)).
Defined.

(** X6.  [readiness_check] answers "ready" in every world, without a call to
    the driver and without a look at the pool: also where [health_check]
    answers "degraded" because there is no pool. *)
Theorem readiness_ignores_database (w : World) :
  readiness_check w
  = (Return {| ReadyResponse.status := lit "ready";
               ReadyResponse.timestamp :=
                 datetime_isoformat (clock w (ticks w)) |},
     reached (database w) 0 1 w)
  /\ (db_pool w = None ->
      exists h w', health_check w = (Return h, w')
                   /\ HealthResponse.status h = lit "degraded").
Proof.
  split; [reflexivity|].
  intros Hp. rewrite health_check_explicit. cbv zeta. rewrite Hp.
  eexists; eexists. split; reflexivity.
Qed.

(** ** What an upload writes *)

Section SaveBlockOutcomes.

Variables (p : Pool) (r : ReceiptRow) (rows : list ItemRow).
Hypothesis rows_of_r :
  Forall (fun i => item_receipt_id i = row_receipt_id r) rows.

(** All statements went through and the release of the connection
    fails: the rows are stored, and the block raises. *)
Lemma save_block_release_fails db t w text :
  unique_violation r db = false ->
  (forall j, j < 2 + List.length rows -> fault j w = None) ->
  fault (2 + List.length rows) w = Some text ->
  save_block p r rows (reached db 0 t w)
  = (Raise (DriverError text),
     reached (add_items rows (add_receipt r db)) (3 + List.length rows) t w).
Proof.
  intros Hu Hok Hrel. unfold save_block.
  rewrite (with_acquire_body p _ db 0 t w (Return msg_saved)
             (add_items rows (add_receipt r db)) (2 + List.length rows) t).
  - now rewrite Hrel.
  - apply Hok; lia.
  - unfold bind. rewrite insert_receipt_reached, (Hok 1), Hu by lia.
    rewrite for_each_all_ok; [reflexivity | |].
    + intros j Hj. apply Hok. lia.
    + apply (rows_pass_foreign_key r rows rows_of_r db []).
Qed.

(** Whatever the faults, the block leaves the tables as they were or
    with the receipt row and a leading part of the item rows added. *)
Lemma save_block_database db t w :
  exists out db' k,
    save_block p r rows (reached db 0 t w) = (out, reached db' k t w)
    /\ (db' = db
        \/ (unique_violation r db = false
            /\ exists j, db' = add_items (firstn j rows) (add_receipt r db))).
Proof.
  destruct (fault 0 w) as [text|] eqn:H0.
  { rewrite (save_block_acquire_fails p r rows db t w text H0).
    eexists; eexists; eexists. split; [reflexivity | now left]. }
  destruct (fault 1 w) as [text|] eqn:H1.
  { destruct (save_block_receipt_fails p r rows db t w H0) as [e He];
      [left; congruence|].
    rewrite He. eexists; eexists; eexists. split; [reflexivity | now left]. }
  destruct (unique_violation r db) eqn:Hu.
  { destruct (save_block_receipt_fails p r rows db t w H0) as [e He];
      [now right|].
    rewrite He. eexists; eexists; eexists. split; [reflexivity | now left]. }
  destruct (first_fault_dec (List.length rows) 2 w)
    as [Hall | (j & text & Hj & Hbefore & Hat)].
  2:{ destruct (save_block_item_fails p r rows rows_of_r db t w j text
                  Hu H0 H1 Hj Hbefore Hat) as [e He].
      rewrite He. eexists; eexists; eexists. split; [reflexivity|].
      right. split; [reflexivity|]. now exists j. }
  assert (Hok : forall j, j < 2 + List.length rows -> fault j w = None).
  { intros j Hj. destruct j as [|[|j]]; [exact H0 | exact H1 |].
    apply (Hall j). lia. }
  destruct (fault (2 + List.length rows) w) as [text|] eqn:Hrel.
  - rewrite (save_block_release_fails db t w text Hu Hok Hrel).
    eexists; eexists; eexists. split; [reflexivity|].
    right. split; [reflexivity|]. exists (List.length rows).
    now rewrite firstn_all.
  - rewrite (save_block_saved p r rows rows_of_r db t w Hu).
    + eexists; eexists; eexists. split; [reflexivity|].
      right. split; [reflexivity|]. exists (List.length rows).
      now rewrite firstn_all.
    + intros j Hj.
      destruct (Nat.eq_dec j (2 + List.length rows)) as [->|Hne];
        [exact Hrel | apply Hok; lia].
Qed.

End SaveBlockOutcomes.

Lemma upload_receipt_database file w :
  is_image file = true ->
  let row := new_receipt_row (clock w (ticks w)) (clock w (S (ticks w))) in
  let rows := new_item_rows (clock w (ticks w)) in
  database (snd (upload_receipt file w)) = database w
  \/ (unique_violation row (database w) = false
      /\ exists j,
           database (snd (upload_receipt file w))
           = add_items (firstn j rows) (add_receipt row (database w))).
Proof.
  intros Himg. cbv zeta. rewrite (upload_receipt_run file w Himg). cbv zeta.
  destruct (db_pool w) as [p|]; [|now left].
  destruct (save_block_database p _ _
              (new_item_rows_of_receipt (clock w (ticks w))
                 (clock w (S (ticks w))))
              (database w) 2 w) as (out & db' & k & Hrun & Hdb).
  rewrite Hrun. destruct out as [m|e]; exact Hdb.
Qed.

(** X7.  A successful upload appends exactly one receipt row and the two item
    rows, in the source's order, and nothing else.  The row carries the
    response's identifier, merchant name, total, date and status, and the
    image reference "s3://receipts/<identifier>.jpg"; its identifier was
    not in the table before. *)
Theorem upload_saved_appends_rows
    (file : UploadFile) (w w' : World) (resp : ReceiptResponse.t) :
  upload_receipt file w = (Return resp, w') ->
  ReceiptResponse.message resp = msg_saved ->
  exists row,
    receipts (database w') = receipts (database w) ++ [row]
    /\ row_receipt_id row = ReceiptResponse.receipt_id resp
    /\ row_merchant_name row = ReceiptResponse.merchant_name resp
    /\ row_total_amount row = ReceiptResponse.total_amount resp
    /\ date_isoformat (row_receipt_date row) = ReceiptResponse.date resp
    /\ row_status row = ReceiptResponse.status resp
    /\ row_image_url row
       = lit "s3://receipts/" ++ ReceiptResponse.receipt_id resp ++ lit ".jpg"
    /\ ~ In (ReceiptResponse.receipt_id resp)
            (map row_receipt_id (receipts (database w)))
    /\ receipt_items (database w')
       = receipt_items (database w)
         ++ [ {| item_receipt_id := ReceiptResponse.receipt_id resp;
                 item_name := lit "아메리카노";
                 item_quantity := 2; item_price := 4500.0%Q |};
              {| item_receipt_id := ReceiptResponse.receipt_id resp;
                 item_name := lit "샌드위치";
                 item_quantity := 1; item_price := 6000.0%Q |} ].
Proof.
  intros Hrun Hmsg.
  destruct (is_image file) eqn:Himg;
    [|rewrite (upload_receipt_rejects file w Himg) in Hrun; discriminate].
  destruct (upload_receipt_cases file w Himg) as (m & v & E & Hcases).
  rewrite E in Hrun. injection Hrun as <- <-.
  cbn [response ReceiptResponse.message] in Hmsg. subst m.
  destruct messages_distinct as (Hsf & Hsd & _).
  destruct Hcases as [(_ & _ & Hu & _ & ->) | [(Eq & _) | (Eq & _)]];
    [|congruence|congruence].
  exists (new_receipt_row (clock w (ticks w)) (clock w (S (ticks w)))).
  cbn [database reached response ReceiptResponse.receipt_id
       ReceiptResponse.merchant_name ReceiptResponse.total_amount
       ReceiptResponse.date ReceiptResponse.status].
  rewrite add_items_receipts, add_items_receipt_items.
  split; [reflexivity|]. split; [reflexivity|]. split; [reflexivity|].
  split; [reflexivity|]. split; [reflexivity|]. split; [reflexivity|].
  split; [reflexivity|].
  split; [exact (proj1 (unique_violation_false_iff _ _) Hu) | reflexivity].
Qed.

Lemma upload_saved_appends_rows_witness :
  exists row,
    receipts (database (snd (upload_receipt receipt_jpg
                (world_with (Some ConnectionPool) empty_database []))))
    = [] ++ [row]
    /\ row_receipt_id row = new_receipt_id (clock_jan15 0).
Proof.
  assert (Hrun :
    upload_receipt receipt_jpg
      (world_with (Some ConnectionPool) empty_database [])
    = (Return (response (clock_jan15 0) (clock_jan15 1) msg_saved),
       snd (upload_receipt receipt_jpg
              (world_with (Some ConnectionPool) empty_database []))))
    by (vm_compute; reflexivity).
  remember (snd (upload_receipt receipt_jpg
                   (world_with (Some ConnectionPool) empty_database [])))
    as w1 eqn:Ew1.
  destruct (upload_saved_appends_rows receipt_jpg
              (world_with (Some ConnectionPool) empty_database []) w1
              (response (clock_jan15 0) (clock_jan15 1) msg_saved)
              Hrun (eq_refl msg_saved))
    as (row & Hrows & Hid & _).
  exists row. split; [exact Hrows | exact Hid].
Defined.

(** X8.  When acquiring the connection or the receipt insert fails, the upload
    still answers 200, with the save-failed message, and writes nothing:
    no item insert is attempted. *)
Theorem upload_failure_before_insert_writes_nothing
    (file : UploadFile) (w : World) (p : Pool) :
  let now1 := clock w (ticks w) in
  let now2 := clock w (S (ticks w)) in
  is_image file = true ->
  db_pool w = Some p ->
  fault 0 w <> None \/ fault 1 w <> None
  \/ unique_violation (new_receipt_row now1 now2) (database w) = true ->
  exists w',
    upload_receipt file w = (Return (response now1 now2 msg_save_failed), w')
    /\ database w' = database w.
Proof.
  intros now1 now2 Himg Hp Hfail.
  rewrite (upload_receipt_run file w Himg). cbv zeta. rewrite Hp.
  fold now1 now2.
  destruct (fault 0 w) as [text|] eqn:H0.
  { rewrite (save_block_acquire_fails p _ _ (database w) 2 w text H0).
    eexists. split; reflexivity. }
  destruct (save_block_receipt_fails p (new_receipt_row now1 now2)
              (new_item_rows now1) (database w) 2 w H0) as [e He].
  { destruct Hfail as [H|[H|H]]; [congruence | now left | now right]. }
  rewrite He. eexists. split; reflexivity.
Qed.

Lemma upload_failure_before_insert_writes_nothing_witness :
  exists w',
    upload_receipt receipt_jpg
      (world_with (Some ConnectionPool) empty_database
         [None; Some (lit "deadlock detected")])
    = (Return (response (clock_jan15 0) (clock_jan15 1) msg_save_failed), w')
    /\ database w' = empty_database.
Proof.
  exact (upload_failure_before_insert_writes_nothing receipt_jpg
           (world_with (Some ConnectionPool) empty_database
              [None; Some (lit "deadlock detected")])
           ConnectionPool eq_refl eq_refl
           (or_intror (or_introl
              (fun H : Some (lit "deadlock detected") = None =>
                 match H in _ = o
                       return match o with Some _ => True | None => False end
                 with eq_refl => I end)))).
Defined.

(** X9.  When every insert went through and only the release of the connection
    fails, the upload answers with the save-failed message although the
    receipt and both items are stored: a later [get_receipt], with storage
    available, returns them. *)
Theorem upload_release_failure_reports_failed_but_stored
    (file : UploadFile) (w : World) (p : Pool) (text : pystr) :
  let now1 := clock w (ticks w) in
  let now2 := clock w (S (ticks w)) in
  let row := new_receipt_row now1 now2 in
  let rows := new_item_rows now1 in
  is_image file = true ->
  db_pool w = Some p ->
  db_consistent (database w) ->
  unique_violation row (database w) = false ->
  (forall j, j < 4 -> fault j w = None) ->
  fault 4 w = Some text ->
  exists w',
    upload_receipt file w = (Return (response now1 now2 msg_save_failed), w')
    /\ database w' = add_items rows (add_receipt row (database w))
    /\ forall w2,
         database w2 = database w' ->
         db_pool w2 <> None ->
         (forall k, k < 4 -> fault k w2 = None) ->
         exists w3,
           get_receipt (new_receipt_id now1) w2
           = (Return (detail_of_rows row rows), w3).
Proof.
  intros now1 now2 row rows Himg Hp Hcons Hu Hok Hrel.
  pose proof (new_item_rows_of_receipt now1 now2) as Hrows.
  fold row rows in Hrows.
  eexists. split; [|split].
  - rewrite (upload_receipt_run file w Himg). cbv zeta.
    fold now1 now2 row rows. rewrite Hp.
    rewrite (save_block_release_fails p row rows Hrows (database w) 2 w text
               Hu Hok Hrel).
    reflexivity.
  - reflexivity.
  - intros w2 Hdb Hp2 Hok2. cbn [database reached] in Hdb.
    eexists.
    rewrite (get_receipt_found (new_receipt_id now1) w2 row Hp2 Hok2).
    + rewrite Hdb.
      change (new_receipt_id now1) with (row_receipt_id row).
      rewrite (select_items_added row rows (database w) Hcons Hu Hrows).
      reflexivity.
    + rewrite Hdb. exact (select_receipt_added row rows _ Hu).
Qed.

Lemma upload_release_failure_reports_failed_but_stored_witness :
  exists w',
    upload_receipt receipt_jpg
      (world_with (Some ConnectionPool) empty_database
         [None; None; None; None; Some (lit "connection reset")])
    = (Return (response (clock_jan15 0) (clock_jan15 1) msg_save_failed), w')
    /\ database w'
       = add_items (new_item_rows (clock_jan15 0))
           (add_receipt (new_receipt_row (clock_jan15 0) (clock_jan15 1))
              empty_database).
Proof.
  assert (Hok : forall j, j < 4 ->
    fault j (world_with (Some ConnectionPool) empty_database
               [None; None; None; None; Some (lit "connection reset")])
    = None).
  { intros j Hj. destruct j as [|[|[|[|j]]]]; [reflexivity .. | lia]. }
  destruct (upload_release_failure_reports_failed_but_stored receipt_jpg
              (world_with (Some ConnectionPool) empty_database
                 [None; None; None; None; Some (lit "connection reset")])
              ConnectionPool (lit "connection reset")
              eq_refl eq_refl empty_database_consistent eq_refl Hok eq_refl)
    as (w' & Hrun & Hdb & _).
  exists w'. split; [exact Hrun | exact Hdb].
Defined.

(** ** What a read returns *)

Lemma fault_reached j db k t w :
  fault j (reached db k t w) = fault (j + k) w.
Proof. unfold fault. cbn [faults reached]. now rewrite Nat.iter_add. Qed.

Lemma get_receipt_not_found id w :
  db_pool w <> None ->
  (forall k, k < 3 -> fault k w = None) ->
  select_receipt id (database w) = None ->
  get_receipt id w = (Raise not_found, reached (database w) 3 0 w).
Proof.
  intros Hp Hok Hsel. rewrite get_receipt_run. cbv zeta.
  destruct (db_pool w); [|congruence].
  rewrite (Hok 0), (Hok 1), (Hok 2), Hsel by lia. reflexivity.
Qed.

Lemma select_receipt_some id db r :
  select_receipt id db = Some r -> In r (receipts db) /\ row_receipt_id r = id.
Proof.
  unfold select_receipt. intros H. apply find_some in H as [Hin Heq].
  split; [exact Hin | now apply eqb_eq].
Qed.

(** X10.  [get_receipt] never writes: whatever it answers, the tables and the
    pool are as before. *)
Theorem get_receipt_read_only (id : pystr) (w : World) :
  database (snd (get_receipt id w)) = database w
  /\ db_pool (snd (get_receipt id w)) = db_pool w.
Proof.
  split; [apply get_receipt_database|].
  rewrite get_receipt_run. cbv zeta.
  destruct (db_pool w) eqn:Hp; [|exact Hp].
  destruct (fault 0 w); [exact Hp|].
  destruct (fault 1 w); [exact Hp|].
  destruct (select_receipt id (database w));
    destruct (fault 2 w); try exact Hp;
    destruct (fault 3 w); exact Hp.
Qed.

(** X11.  Every answer of [get_receipt] carries the requested identifier: it is
    either the placeholder for that identifier or built from a row of
    [receipts] whose identifier is the requested one, with the items
    stored under it. *)
Theorem get_receipt_returns_requested_id
    (id : pystr) (w w' : World) (d : ReceiptDetail.t) :
  get_receipt id w = (Return d, w') ->
  ReceiptDetail.receipt_id d = id
  /\ (d = dummy_detail id (clock w (ticks w))
      \/ exists r,
           In r (receipts (database w))
           /\ row_receipt_id r = id
           /\ d = detail_of_rows r (select_items id (database w))).
Proof.
  rewrite get_receipt_run. cbv zeta. intros Hrun.
  assert (Hdummy : forall d0 w0,
    (Return (dummy_detail id (clock w (ticks w))), w0) = (Return d, w') ->
    d0 = d ->
    ReceiptDetail.receipt_id d = id
    /\ (d = dummy_detail id (clock w (ticks w))
        \/ exists r,
             In r (receipts (database w))
             /\ row_receipt_id r = id
             /\ d = detail_of_rows r (select_items id (database w)))).
  { intros d0 w0 E _. injection E as <- _. split; [reflexivity | now left]. }
  destruct (db_pool w); [|exact (Hdummy d _ Hrun eq_refl)].
  destruct (fault 0 w); [exact (Hdummy d _ Hrun eq_refl)|].
  destruct (fault 1 w); [exact (Hdummy d _ Hrun eq_refl)|].
  destruct (select_receipt id (database w)) as [r|] eqn:Hsel.
  - destruct (fault 2 w); [exact (Hdummy d _ Hrun eq_refl)|].
    destruct (fault 3 w); [exact (Hdummy d _ Hrun eq_refl)|].
    injection Hrun as <- _.
    destruct (select_receipt_some id _ r Hsel) as [Hin Hid].
    split; [exact Hid|]. right. exists r. repeat split; assumption.
  - destruct (fault 2 w); [exact (Hdummy d _ Hrun eq_refl)|].
    discriminate.
Qed.

Lemma get_receipt_returns_requested_id_witness :
  ReceiptDetail.receipt_id
    (dummy_detail (lit "RCP-20240115-093000") (clock_jan15 0))
  = lit "RCP-20240115-093000".
Proof.
  exact (proj1 (get_receipt_returns_requested_id
                  (lit "RCP-20240115-093000")
                  (world_with None empty_database []) _ _ eq_refl)).
Defined.

(** X12.  With storage available, reading twice gives the same answer: the same
    receipt with the same items, or 404 both times. *)
Theorem get_receipt_repeatable (id : pystr) (w : World) :
  db_pool w <> None ->
  (forall k, k < 8 -> fault k w = None) ->
  fst (get_receipt id (snd (get_receipt id w))) = fst (get_receipt id w)
  /\ (fst (get_receipt id w) = Raise not_found
      \/ exists r,
           fst (get_receipt id w)
           = Return (detail_of_rows r (select_items id (database w)))).
Proof.
  intros Hp Hok.
  destruct (select_receipt id (database w)) as [r|] eqn:Hsel.
  - rewrite (get_receipt_found id w r Hp) by (try assumption; intros; apply Hok; lia).
    cbn [fst snd]. split; [|right; now exists r].
    rewrite (get_receipt_found id (reached (database w) 4 0 w) r);
      [reflexivity | exact Hp | | exact Hsel].
    intros k Hk. rewrite fault_reached. apply Hok. lia.
  - rewrite (get_receipt_not_found id w Hp) by (try assumption; intros; apply Hok; lia).
    cbn [fst snd]. split; [|now left].
    rewrite (get_receipt_not_found id (reached (database w) 3 0 w));
      [reflexivity | exact Hp | | exact Hsel].
    intros k Hk. rewrite fault_reached. apply Hok. lia.
Qed.

Lemma get_receipt_repeatable_witness :
  fst (get_receipt (lit "RCP-20240115-093000")
         (snd (get_receipt (lit "RCP-20240115-093000")
                 (world_with (Some ConnectionPool) empty_database []))))
  = fst (get_receipt (lit "RCP-20240115-093000")
           (world_with (Some ConnectionPool) empty_database [])).
Proof.
  assert (Hok : forall k, k < 8 ->
    fault k (world_with (Some ConnectionPool) empty_database []) = None).
  { intros k Hk.
    destruct k as [|[|[|[|[|[|[|[|k]]]]]]]]; [reflexivity .. | lia]. }
  exact (proj1 (get_receipt_repeatable (lit "RCP-20240115-093000")
                  (world_with (Some ConnectionPool) empty_database [])
                  ltac:(discriminate) Hok)).
Defined.

(** X13.  When the receipt is not there and the release of the connection
    fails, the exception of the release replaces the 404: the caller gets
    the placeholder with status 200. *)
Theorem get_receipt_release_failure_masks_not_found
    (id : pystr) (w : World) (p : Pool) (text : pystr) :
  db_pool w = Some p ->
  fault 0 w = None -> fault 1 w = None ->
  select_receipt id (database w) = None ->
  fault 2 w = Some text ->
  get_receipt id w
  = (Return (dummy_detail id (clock w (ticks w))),
     reached (database w) 3 1 w).
Proof.
  intros Hp H0 H1 Hsel H2. rewrite get_receipt_run. cbv zeta.
  now rewrite Hp, H0, H1, Hsel, H2.
Qed.

Lemma get_receipt_release_failure_masks_not_found_witness :
  fst (get_receipt (lit "RCP-19990101-000000")
         (world_with (Some ConnectionPool) empty_database
            [None; None; Some (lit "connection reset")]))
  = Return (dummy_detail (lit "RCP-19990101-000000") (clock_jan15 0)).
Proof.
  rewrite (get_receipt_release_failure_masks_not_found
             (lit "RCP-19990101-000000")
             (world_with (Some ConnectionPool) empty_database
                [None; None; Some (lit "connection reset")])
             ConnectionPool (lit "connection reset")
             eq_refl eq_refl eq_refl eq_refl eq_refl).
  reflexivity.
Defined.

(** ** What the tables hold *)

Lemma add_items_consistent rows : forall db,
  db_consistent db ->
  (forall i, In i rows -> foreign_key_violation i db = false) ->
  db_consistent (add_items rows db).
Proof.
  induction rows as [|i rows IH]; intros db Hc Hfk; [exact Hc|].
  change (add_items (i :: rows) db) with (add_items rows (add_item i db)).
  apply IH.
  - apply add_item_consistent; [exact Hc | apply Hfk; now left].
  - intros i' Hi'. exact (Hfk i' (or_intror Hi')).
Qed.

Lemma select_items_add_items id rows db :
  select_items id (add_items rows db)
  = select_items id db
    ++ filter (fun i => PyStr.eqb (item_receipt_id i) id) rows.
Proof.
  unfold select_items. now rewrite add_items_receipt_items, filter_app.
Qed.

Lemma filter_other_id id id' rows :
  Forall (fun i => item_receipt_id i = id') rows -> id' <> id ->
  filter (fun i => PyStr.eqb (item_receipt_id i) id) rows = [].
Proof.
  intros Hrows Hne. induction Hrows as [|i rows Hi _ IH]; [reflexivity|].
  cbn [filter]. rewrite Hi.
  apply eqb_neq in Hne. now rewrite Hne.
Qed.

Lemma filter_same_id id rows :
  Forall (fun i => item_receipt_id i = id) rows ->
  filter (fun i => PyStr.eqb (item_receipt_id i) id) rows = rows.
Proof.
  intros Hrows. induction Hrows as [|i rows Hi _ IH]; [reflexivity|].
  cbn [filter]. rewrite Hi, eqb_refl. now rewrite IH.
Qed.

Lemma new_item_rows_uploaded now1 : Forall uploaded_item (new_item_rows now1).
Proof. apply Forall_forall. intros i Hi. now exists now1. Qed.

Lemma new_item_rows_id now1 :
  Forall (fun i => item_receipt_id i = new_receipt_id now1)
         (new_item_rows now1).
Proof. repeat constructor. Qed.

Lemma empty_database_invariant : upload_invariant empty_database.
Proof.
  split; [exact empty_database_consistent|]. split.
  - split; constructor.
  - intros r [].
Qed.

(** The invariant survives what an upload can write: the receipt row, with
    a fresh identifier, and a leading part of its item rows. *)
Lemma upload_invariant_step db now1 now2 j :
  upload_invariant db ->
  unique_violation (new_receipt_row now1 now2) db = false ->
  upload_invariant
    (add_items (firstn j (new_item_rows now1))
       (add_receipt (new_receipt_row now1 now2) db)).
Proof.
  intros (Hc & (Hrows & Hitems) & Hord) Hu.
  set (row := new_receipt_row now1 now2) in *.
  set (rows := new_item_rows now1).
  assert (Hof : Forall (fun i => item_receipt_id i = row_receipt_id row)
                       (firstn j rows))
    by (apply Forall_prefix; apply new_item_rows_id).
  split; [|split; [split|]].
  - apply add_items_consistent.
    + now apply add_receipt_consistent.
    + intros i Hi. apply foreign_key_after_receipt.
      exact (proj1 (Forall_forall _ _) Hof i Hi).
  - rewrite add_items_receipts. cbn [add_receipt receipts].
    apply Forall_app. split; [exact Hrows|].
    constructor; [|constructor]. now exists now1, now2.
  - rewrite add_items_receipt_items. cbn [add_receipt receipt_items].
    apply Forall_app. split; [exact Hitems|].
    apply Forall_prefix. apply new_item_rows_uploaded.
  - intros r Hin. rewrite add_items_receipts in Hin.
    cbn [add_receipt receipts] in Hin.
    rewrite select_items_add_items.
    change (select_items (row_receipt_id r) (add_receipt row db))
      with (select_items (row_receipt_id r) db).
    apply in_app_or in Hin as [Hin | [<- | []]].
    + destruct (Hord r Hin) as (n1 & j1 & Hid & Hsel).
      exists n1, j1. split; [exact Hid|].
      rewrite Hsel, (filter_other_id _ (row_receipt_id row));
        [now rewrite app_nil_r | exact Hof |].
      intros Heq. apply (proj1 (unique_violation_false_iff row db) Hu).
      rewrite Heq. now apply in_map.
    + exists now1, j. split; [reflexivity|].
      rewrite (select_items_none _ _ Hc
                 (proj1 (unique_violation_false_iff row db) Hu)).
      cbn [app]. exact (filter_same_id _ _ Hof).
Qed.

(** Every world the service can be in satisfies the invariant. *)
Lemma reachable_upload_invariant w :
  reachable w -> upload_invariant (database w).
Proof.
  induction 1 as [pool fs clk n | file w _ IH | id w _ IH | w _ IH
                 | w _ IH | fs w _ IH].
  - exact empty_database_invariant.
  - destruct (is_image file) eqn:Himg.
    + destruct (upload_receipt_database file w Himg) as [-> | (Hu & j & ->)];
        [exact IH | now apply upload_invariant_step].
    + now rewrite (upload_receipt_rejects file w Himg).
  - now rewrite get_receipt_database.
  - now rewrite health_check_database.
  - unfold lifespan_startup, create_pool, bind, driver_call, ret.
    destruct (hd None (faults w)); exact IH.
  - exact IH.
Qed.

Lemma uploaded_row_fields r :
  uploaded_row r ->
  row_merchant_name r = lit "스타벅스 강남점"
  /\ row_total_amount r = 15000.0%Q
  /\ row_status r = lit "processed"
  /\ row_image_url r = lit "s3://receipts/" ++ row_receipt_id r ++ lit ".jpg"
  /\ is_receipt_id_format (row_receipt_id r) = true.
Proof.
  intros (now1 & now2 & ->). cbn [new_receipt_row row_merchant_name
    row_total_amount row_status row_image_url row_receipt_id].
  repeat (split; [reflexivity|]). apply new_receipt_id_format.
Qed.

(** X14.  In every world the service can be in, the tables hold only what
    uploads wrote: each receipt has the fixed merchant name, total and
    status, an identifier of the shape RCP-YYYYMMDD-HHMMSS and the image
    reference made from it; each item is one of the two items of the
    source and belongs to a receipt of the table; no identifier occurs
    twice. *)
Theorem reachable_tables_hold_uploads (w : World) :
  reachable w ->
  (forall r, In r (receipts (database w)) ->
     row_merchant_name r = lit "스타벅스 강남점"
     /\ row_total_amount r = 15000.0%Q
     /\ row_status r = lit "processed"
     /\ row_image_url r
        = lit "s3://receipts/" ++ row_receipt_id r ++ lit ".jpg"
     /\ is_receipt_id_format (row_receipt_id r) = true)
  /\ (forall i, In i (receipt_items (database w)) ->
        ((item_name i = lit "아메리카노" /\ item_quantity i = 2%Z
          /\ item_price i = 4500.0%Q)
         \/ (item_name i = lit "샌드위치" /\ item_quantity i = 1%Z
             /\ item_price i = 6000.0%Q))
        /\ In (item_receipt_id i) (map row_receipt_id (receipts (database w))))
  /\ NoDup (map row_receipt_id (receipts (database w))).
Proof.
  intros Hreach.
  destruct (reachable_upload_invariant w Hreach)
    as ((Hnd & Hfk) & (Hrows & Hitems) & _).
  split; [|split; [|exact Hnd]].
  - intros r Hin. apply uploaded_row_fields.
    exact (proj1 (Forall_forall _ _) Hrows r Hin).
  - intros i Hin. split; [|now apply Hfk].
    destruct (proj1 (Forall_forall _ _) Hitems i Hin) as (now1 & Hi).
    destruct Hi as [<- | [<- | []]]; [left | right]; repeat split.
Qed.

Lemma reachable_tables_hold_uploads_witness :
  NoDup (map row_receipt_id
           (receipts (database
              (snd (upload_receipt receipt_jpg
                      (world_with (Some ConnectionPool) empty_database
                         [])))))).
Proof.
  exact (proj2 (proj2 (reachable_tables_hold_uploads _
           (reachable_upload receipt_jpg _
              (reachable_start (Some ConnectionPool) [] clock_jan15 0))))).
Defined.

(** ** Reads in the worlds the service can be in *)

Lemma get_receipt_return_cases id w d w' :
  get_receipt id w = (Return d, w') ->
  (d = dummy_detail id (clock w (ticks w))
   /\ (db_pool w = None \/ exists j, j < 4 /\ fault j w <> None))
  \/ (exists r,
        select_receipt id (database w) = Some r
        /\ d = detail_of_rows r (select_items id (database w))
        /\ db_pool w <> None
        /\ forall j, j < 4 -> fault j w = None).
Proof.
  rewrite get_receipt_run. cbv zeta. intros Hrun.
  destruct (db_pool w) as [p|] eqn:Hp.
  2:{ injection Hrun as <- _. left. split; [reflexivity | now left]. }
  destruct (fault 0 w) as [t0|] eqn:H0.
  { injection Hrun as <- _. left. split; [reflexivity|]. right.
    exists 0. split; [lia | congruence]. }
  destruct (fault 1 w) as [t1|] eqn:H1.
  { injection Hrun as <- _. left. split; [reflexivity|]. right.
    exists 1. split; [lia | congruence]. }
  destruct (fault 2 w) as [t2|] eqn:H2.
  { left.
    destruct (select_receipt id (database w)); injection Hrun as <- _;
      (split; [reflexivity|]); right; exists 2; (split; [lia | congruence]). }
  destruct (select_receipt id (database w)) as [r|] eqn:Hsel;
    [|discriminate].
  destruct (fault 3 w) as [t3|] eqn:H3.
  { injection Hrun as <- _. left. split; [reflexivity|]. right.
    exists 3. split; [lia | congruence]. }
  injection Hrun as <- _. right. exists r.
  split; [reflexivity|]. split; [reflexivity|]. split; [discriminate|].
  intros j Hj. destruct j as [|[|[|[|j]]]]; try assumption. lia.
Qed.

Lemma dummy_detail_merchant id now :
  ReceiptDetail.merchant_name (dummy_detail id now) = placeholder_merchant.
Proof.
  unfold placeholder_merchant.
  cbn [dummy_detail ReceiptDetail.merchant_name]. reflexivity.
Qed.

Lemma placeholder_merchant_differs :
  lit "스타벅스 강남점" <> placeholder_merchant.
Proof. apply eqb_neq. vm_compute. reflexivity. Qed.

(** X15.  In every world the service can be in, the merchant name tells a
    placeholder from a stored receipt: an answer of [get_receipt] has the
    merchant name marked "(더미)" exactly when the pool is missing or a
    driver call failed, and the unmarked name otherwise. *)
Theorem placeholder_told_by_merchant_name
    (id : pystr) (w w' : World) (d : ReceiptDetail.t) :
  reachable w ->
  get_receipt id w = (Return d, w') ->
  (ReceiptDetail.merchant_name d = placeholder_merchant
   <-> (db_pool w = None \/ exists j, j < 4 /\ fault j w <> None))
  /\ (ReceiptDetail.merchant_name d = placeholder_merchant
      \/ ReceiptDetail.merchant_name d = lit "스타벅스 강남점").
Proof.
  intros Hreach Hrun.
  destruct (get_receipt_return_cases id w d w' Hrun)
    as [(-> & Hdeg) | (r & Hsel & -> & Hp & Hok)].
  - split; [|left; apply dummy_detail_merchant].
    split; [intros _; exact Hdeg | intros _; apply dummy_detail_merchant].
  - destruct (select_receipt_some id _ r Hsel) as [Hin _].
    destruct (reachable_upload_invariant w Hreach) as (_ & (Hrows & _) & _).
    destruct (uploaded_row_fields r (proj1 (Forall_forall _ _) Hrows r Hin))
      as (Hm & _).
    cbn [detail_of_rows ReceiptDetail.merchant_name]. rewrite Hm.
    split; [|right; reflexivity]. split.
    + intros H. exfalso. exact (placeholder_merchant_differs H).
    + intros [Hnone | (j & Hj & Hbad)]; [congruence|].
      exfalso. apply Hbad. now apply Hok.
Qed.

Lemma placeholder_told_by_merchant_name_witness :
  db_pool (world_with None empty_database []) = None
  \/ exists j, j < 4 /\ fault j (world_with None empty_database []) <> None.
Proof.
  exact (proj1 (proj1 (placeholder_told_by_merchant_name
                         (lit "RCP-20240115-093000")
                         (world_with None empty_database []) _ _
                         (reachable_start None [] clock_jan15 0) eq_refl))
               (dummy_detail_merchant _ _)).
Defined.

Lemma items_as_listed_of_rows now1 j :
  map (fun item =>
         {| ReceiptDetail.name := item_name item;
            ReceiptDetail.quantity := item_quantity item;
            ReceiptDetail.price := float (item_price item) |})
      (firstn j (new_item_rows now1))
  = firstn j items_as_listed.
Proof. now rewrite <- firstn_map. Qed.

(** X16.  In every world the service can be in, a stored receipt is returned
    with the fixed merchant name, total and status and with a leading part
    of the source's two items, in their order: never more than two items,
    never an item of another receipt. *)
Theorem stored_receipt_has_leading_items
    (id : pystr) (w w' : World) (d : ReceiptDetail.t) :
  reachable w ->
  get_receipt id w = (Return d, w') ->
  d = dummy_detail id (clock w (ticks w))
  \/ (ReceiptDetail.receipt_id d = id
      /\ is_receipt_id_format id = true
      /\ ReceiptDetail.merchant_name d = lit "스타벅스 강남점"
      /\ ReceiptDetail.total_amount d = 15000.0%Q
      /\ ReceiptDetail.status d = lit "processed"
      /\ (exists j, ReceiptDetail.items d = firstn j items_as_listed)
      /\ List.length (ReceiptDetail.items d) <= 2).
Proof.
  intros Hreach Hrun.
  destruct (get_receipt_return_cases id w d w' Hrun)
    as [(-> & _) | (r & Hsel & -> & _)]; [now left | right].
  destruct (select_receipt_some id _ r Hsel) as [Hin Hid].
  destruct (reachable_upload_invariant w Hreach) as (_ & (Hrows & _) & Hord).
  destruct (uploaded_row_fields r (proj1 (Forall_forall _ _) Hrows r Hin))
    as (Hm & Ht & Hs & _ & Hfmt).
  destruct (Hord r Hin) as (now1 & j & _ & Hitems).
  rewrite Hid in Hitems, Hfmt.
  cbn [detail_of_rows ReceiptDetail.receipt_id ReceiptDetail.merchant_name
       ReceiptDetail.total_amount ReceiptDetail.status ReceiptDetail.items].
  rewrite Hitems, items_as_listed_of_rows.
  split; [exact Hid|]. split; [exact Hfmt|]. split; [exact Hm|].
  split; [exact Ht|]. split; [exact Hs|]. split; [now exists j|].
  rewrite length_firstn. apply Nat.le_min_r.
Qed.

Lemma stored_receipt_has_leading_items_witness :
  exists d w',
    get_receipt (lit "RCP-20240115-093000")
      (snd (upload_receipt receipt_jpg
              (world_with (Some ConnectionPool) empty_database
                 [None; None; None; Some (lit "connection lost")])))
    = (Return d, w')
    /\ (d = dummy_detail (lit "RCP-20240115-093000") (clock_jan15 2)
        \/ List.length (ReceiptDetail.items d) <= 2).
Proof.
  assert (Hreach :
    reachable (snd (upload_receipt receipt_jpg
                      (world_with (Some ConnectionPool) empty_database
                         [None; None; None; Some (lit "connection lost")])))).
  { apply reachable_upload. apply reachable_start. }
  assert (Hrun : exists d,
    get_receipt (lit "RCP-20240115-093000")
      (snd (upload_receipt receipt_jpg
              (world_with (Some ConnectionPool) empty_database
                 [None; None; None; Some (lit "connection lost")])))
    = (Return d,
       snd (get_receipt (lit "RCP-20240115-093000")
              (snd (upload_receipt receipt_jpg
                      (world_with (Some ConnectionPool) empty_database
                         [None; None; None;
                          Some (lit "connection lost")])))))).
  { eexists. vm_compute. reflexivity. }
  destruct Hrun as (d & Hrun).
  assert (Hclock :
    clock_jan15 2
    = clock (snd (upload_receipt receipt_jpg
                    (world_with (Some ConnectionPool) empty_database
                       [None; None; None; Some (lit "connection lost")])))
        (ticks (snd (upload_receipt receipt_jpg
                       (world_with (Some ConnectionPool) empty_database
                          [None; None; None;
                           Some (lit "connection lost")])))))
    by (vm_compute; reflexivity).
  rewrite Hclock.
  remember (snd (upload_receipt receipt_jpg
                   (world_with (Some ConnectionPool) empty_database
                      [None; None; None; Some (lit "connection lost")])))
    as w1 eqn:Ew1.
  remember (snd (get_receipt (lit "RCP-20240115-093000") w1)) as w' eqn:Ew'.
  exists d, w'. split; [exact Hrun|].
  destruct (stored_receipt_has_leading_items _ _ _ _ Hreach Hrun)
    as [H | (_ & _ & _ & _ & _ & _ & Hle)];
    [left; exact H | right; exact Hle].
Defined.

(** ** Uploads only add rows *)

(** X17.  An upload, whatever its file and whatever fails, never removes or
    alters a row: it appends at most one receipt row and at most two item
    rows. *)
Theorem upload_appends_only (file : UploadFile) (w : World) :
  exists new_receipts new_items,
    receipts (database (snd (upload_receipt file w)))
    = receipts (database w) ++ new_receipts
    /\ receipt_items (database (snd (upload_receipt file w)))
       = receipt_items (database w) ++ new_items
    /\ List.length new_receipts <= 1
    /\ List.length new_items <= 2
    /\ (new_receipts = [] -> new_items = []).
Proof.
  destruct (is_image file) eqn:Himg.
  2:{ rewrite (upload_receipt_rejects file w Himg). exists [], [].
      cbn [snd List.length]. rewrite !app_nil_r. repeat split; lia. }
  destruct (upload_receipt_database file w Himg) as [-> | (_ & j & ->)].
  - exists [], []. cbn [List.length]. rewrite !app_nil_r.
    repeat split; lia.
  - eexists; eexists.
    rewrite add_items_receipts, add_items_receipt_items.
    cbn [add_receipt receipts receipt_items].
    split; [reflexivity|]. split; [reflexivity|].
    split; [cbn; lia|]. split; [|discriminate].
    rewrite length_firstn. apply Nat.le_min_r.
Qed.

Lemma find_app_some {A} (f : A -> bool) (l l' : list A) (x : A) :
  find f l = Some x -> find f (l ++ l') = Some x.
Proof.
  induction l as [|a l IH]; cbn [find app]; [discriminate|].
  destruct (f a); [trivial | exact IH].
Qed.

Lemma upload_keeps_stored file w id r :
  db_consistent (database w) ->
  select_receipt id (database w) = Some r ->
  select_receipt id (database (snd (upload_receipt file w))) = Some r
  /\ select_items id (database (snd (upload_receipt file w)))
     = select_items id (database w).
Proof.
  intros Hc Hsel.
  destruct (is_image file) eqn:Himg;
    [|rewrite (upload_receipt_rejects file w Himg); now split].
  destruct (upload_receipt_database file w Himg) as [-> | (Hu & j & ->)];
    [now split|].
  destruct (select_receipt_some id _ r Hsel) as [Hin Hid].
  split.
  - unfold select_receipt. rewrite add_items_receipts.
    cbn [add_receipt receipts]. now apply find_app_some.
  - rewrite select_items_add_items.
    rewrite (filter_other_id id
               (new_receipt_id (clock w (ticks w)))).
    + now rewrite app_nil_r.
    + apply Forall_prefix. apply new_item_rows_id.
    + intros Heq.
      apply (proj1 (unique_violation_false_iff _ _) Hu).
      cbn [new_receipt_row row_receipt_id]. rewrite Heq, <- Hid.
      now apply in_map.
Qed.

(** X18.  Once a receipt is stored, no series of later uploads changes what is
    read back for it: the same row and the same items, so [get_receipt],
    with storage available, returns the same answer as before them. *)
Theorem stored_receipt_survives_uploads
    (files : list UploadFile) (w : World) (id : pystr) (r : ReceiptRow) :
  db_consistent (database w) ->
  select_receipt id (database w) = Some r ->
  select_receipt id (database (after_uploads files w)) = Some r
  /\ select_items id (database (after_uploads files w))
     = select_items id (database w)
  /\ forall w2,
       database w2 = database (after_uploads files w) ->
       db_pool w2 <> None ->
       (forall k, k < 4 -> fault k w2 = None) ->
       fst (get_receipt id w2)
       = Return (detail_of_rows r (select_items id (database w))).
Proof.
  intros Hc Hsel.
  assert (Hkeep :
    select_receipt id (database (after_uploads files w)) = Some r
    /\ select_items id (database (after_uploads files w))
       = select_items id (database w)).
  { revert w Hc Hsel. induction files as [|file files IH]; intros w Hc Hsel;
      [now split|].
    cbn [after_uploads fold_left].
    destruct (upload_keeps_stored file w id r Hc Hsel) as [Hsel1 Hitems1].
    destruct (IH (snd (upload_receipt file w))
                (preserves_upload_receipt file w _ _ Hc
                   (surjective_pairing _)) Hsel1) as [Hsel2 Hitems2].
    split; [exact Hsel2 | now rewrite <- Hitems1]. }
  destruct Hkeep as [Hsel' Hitems'].
  split; [exact Hsel'|]. split; [exact Hitems'|].
  intros w2 Hdb Hp Hok.
  rewrite (get_receipt_found id w2 r Hp Hok); rewrite Hdb;
    [|exact Hsel'].
  cbn [fst]. now rewrite Hitems'.
Qed.

Lemma stored_receipt_survives_uploads_witness :
  select_receipt (new_receipt_id (clock_jan15 0))
    (database
       (after_uploads [scan_png; notes_txt]
          (reached (add_receipt (new_receipt_row (clock_jan15 0)
                                                 (clock_jan15 1))
                      empty_database) 0 2
             (world_with (Some ConnectionPool) empty_database []))))
  = Some (new_receipt_row (clock_jan15 0) (clock_jan15 1)).
Proof.
  exact (proj1 (stored_receipt_survives_uploads [scan_png; notes_txt]
    (reached (add_receipt (new_receipt_row (clock_jan15 0) (clock_jan15 1))
                empty_database) 0 2
       (world_with (Some ConnectionPool) empty_database []))
    (new_receipt_id (clock_jan15 0))
    (new_receipt_row (clock_jan15 0) (clock_jan15 1))
    (add_receipt_consistent
       (new_receipt_row (clock_jan15 0) (clock_jan15 1)) empty_database
       empty_database_consistent eq_refl)
    (select_receipt_added
       (new_receipt_row (clock_jan15 0) (clock_jan15 1)) [] empty_database
       eq_refl))).
Defined.

(** ** The two clock readings of an upload *)

Lemma date_isoformat_inj (d1 d2 : pydate) :
  (0 <= d_year d1 < 10000 /\ 0 <= d_month d1 < 100 /\ 0 <= d_day d1 < 100)%Z ->
  (0 <= d_year d2 < 10000 /\ 0 <= d_month d2 < 100 /\ 0 <= d_day d2 < 100)%Z ->
  date_isoformat d1 = date_isoformat d2 -> d1 = d2.
Proof.
  intros B1 B2 H. unfold date_isoformat in H.
  change (lit "-") with [45%N] in H.
  unfold pad4, pad2 in H. cbn [app] in H. injection H; intros.
  assert (Hy : pad4 (d_year d1) = pad4 (d_year d2))
    by (unfold pad4; congruence).
  assert (Hm : pad2 (d_month d1) = pad2 (d_month d2))
    by (unfold pad2; congruence).
  assert (Hd : pad2 (d_day d1) = pad2 (d_day d2))
    by (unfold pad2; congruence).
  apply pad4_inj in Hy; [|lia|lia].
  apply pad2_inj in Hm, Hd; try lia.
  destruct d1, d2; cbn in *; congruence.
Qed.

(** X19.  An upload reads the clock twice: the identifier is made from the first
    reading, the date of the response (and of the stored row) from the
    second.  The date agrees with the day written in the identifier
    exactly when both readings fall on the same day; around midnight they
    differ. *)
Theorem upload_date_is_second_reading
    (file : UploadFile) (w w' : World) (resp : ReceiptResponse.t) :
  let now1 := clock w (ticks w) in
  let now2 := clock w (S (ticks w)) in
  clock_reading now1 = true -> clock_reading now2 = true ->
  upload_receipt file w = (Return resp, w') ->
  ReceiptResponse.receipt_id resp = new_receipt_id now1
  /\ ReceiptResponse.date resp = date_isoformat (date_of now2)
  /\ (ReceiptResponse.date resp = date_isoformat (date_of now1)
      <-> date_of now1 = date_of now2)
  /\ ticks w' = 2 + ticks w.
Proof.
  intros now1 now2 V1 V2 Hrun.
  destruct (is_image file) eqn:Himg;
    [|rewrite (upload_receipt_rejects file w Himg) in Hrun; discriminate].
  pose proof (upload_receipt_run file w Himg) as E. cbv zeta in E.
  fold now1 now2 in E.
  assert (Hshape : exists m k db,
            upload_receipt file w
            = (Return (response now1 now2 m), reached db k 2 w)).
  { rewrite E. destruct (db_pool w) as [p|]; [|eauto].
    destruct (save_block_database p _ _
                (new_item_rows_of_receipt now1 now2) (database w) 2 w)
      as (out & db' & k & Hs & _).
    rewrite Hs. destruct out; eauto. }
  destruct Hshape as (m & k & db & Hs). rewrite Hs in Hrun.
  injection Hrun as <- <-.
  cbn [response ReceiptResponse.receipt_id ReceiptResponse.date ticks reached].
  split; [reflexivity|]. split; [reflexivity|]. split; [|reflexivity].
  apply clock_reading_bounds in V1, V2.
  split; [|intros ->; reflexivity].
  intros H. symmetry.
  apply date_isoformat_inj; [| |exact H];
    cbn [date_of d_year d_month d_day]; lia.
Qed.

Lemma upload_date_is_second_reading_witness :
  exists resp w',
    upload_receipt receipt_jpg world_at_midnight = (Return resp, w')
    /\ ReceiptResponse.receipt_id resp = lit "RCP-20240115-235959"
    /\ ReceiptResponse.date resp = lit "2024-01-16".
Proof.
  assert (Hrun : exists resp,
    upload_receipt receipt_jpg world_at_midnight
    = (Return resp, snd (upload_receipt receipt_jpg world_at_midnight))).
  { eexists. vm_compute. reflexivity. }
  destruct Hrun as (resp & Hrun).
  destruct (upload_date_is_second_reading receipt_jpg world_at_midnight
              _ resp eq_refl eq_refl Hrun) as (Hid & Hdate & _).
  exists resp, (snd (upload_receipt receipt_jpg world_at_midnight)).
  split; [exact Hrun|]. rewrite Hid, Hdate.
  split; vm_compute; reflexivity.
Defined.

(** ** From start-up to a read *)

Lemma fault_after_startup j w :
  fault j (snd (lifespan_startup w)) = fault (S j) w.
Proof.
  unfold lifespan_startup, create_pool, bind, driver_call, ret.
  destruct (hd None (faults w));
    unfold fault; cbn [snd faults set_pool set_faults];
    now rewrite Nat.iter_succ_r.
Qed.

(** X20.  The whole path with no fault: start-up gets its pool, an upload is
    saved, and a read of the returned identifier answers with the stored
    receipt, its fields as in the upload's response and its two items in
    order. *)
Theorem startup_upload_get_end_to_end (file : UploadFile) (w : World) :
  let now1 := clock w (ticks w) in
  let now2 := clock w (S (ticks w)) in
  let row := new_receipt_row now1 now2 in
  is_image file = true ->
  db_consistent (database w) ->
  unique_violation row (database w) = false ->
  (forall j, j < 10 -> fault j w = None) ->
  exists w1 d w2,
    upload_receipt file (snd (lifespan_startup w))
    = (Return (response now1 now2 msg_saved), w1)
    /\ get_receipt (new_receipt_id now1) w1 = (Return d, w2)
    /\ d = detail_of_rows row (new_item_rows now1)
    /\ ReceiptDetail.receipt_id d = new_receipt_id now1
    /\ ReceiptDetail.date d = date_isoformat (date_of now2)
    /\ ReceiptDetail.items d = items_as_listed
    /\ database w2 = add_items (new_item_rows now1)
                       (add_receipt row (database w)).
Proof.
  intros now1 now2 row Himg Hc Hu Hok.
  set (w0 := snd (lifespan_startup w)).
  assert (Hw0 : db_pool w0 = Some ConnectionPool /\ database w0 = database w
                /\ clock w0 = clock w /\ ticks w0 = ticks w).
  { subst w0. unfold lifespan_startup, create_pool, bind, driver_call, ret.
    change (hd None (faults w)) with (fault 0 w).
    rewrite (Hok 0) by lia. repeat split. }
  destruct Hw0 as (Hp0 & Hdb0 & Hclk0 & Htk0).
  assert (Hok0 : forall j, j < 5 -> fault j w0 = None).
  { intros j Hj. subst w0. rewrite fault_after_startup. apply Hok. lia. }
  pose proof (upload_receipt_run file w0 Himg) as Hrun. cbv zeta in Hrun.
  rewrite Hp0, Hclk0, Htk0, Hdb0 in Hrun. fold now1 now2 row in Hrun.
  rewrite (save_block_saved ConnectionPool row (new_item_rows now1)
             (new_item_rows_of_receipt now1 now2) (database w) 2 w0 Hu Hok0)
    in Hrun.
  change (3 + List.length (new_item_rows now1)) with 5 in Hrun.
  set (db1 := add_items (new_item_rows now1) (add_receipt row (database w)))
    in *.
  assert (Hget :
    get_receipt (new_receipt_id now1) (reached db1 5 2 w0)
    = (Return (detail_of_rows row (new_item_rows now1)),
       reached db1 4 0 (reached db1 5 2 w0))).
  { rewrite (get_receipt_found (new_receipt_id now1) (reached db1 5 2 w0) row).
    - cbn [database reached].
      change (new_receipt_id now1) with (row_receipt_id row).
      unfold db1.
      now rewrite (select_items_added row (new_item_rows now1) (database w)
                     Hc Hu (new_item_rows_of_receipt now1 now2)).
    - cbn [db_pool reached]. rewrite Hp0. discriminate.
    - intros k Hk. rewrite fault_reached. subst w0.
      rewrite fault_after_startup. apply Hok. lia.
    - cbn [database reached]. unfold db1.
      exact (select_receipt_added row (new_item_rows now1) _ Hu). }
  eexists; eexists; eexists.
  split; [exact Hrun|]. split; [exact Hget|].
  split; [reflexivity|]. split; [reflexivity|]. split; [reflexivity|].
  split; reflexivity.
Qed.

Lemma startup_upload_get_end_to_end_witness :
  exists w1,
    upload_receipt receipt_jpg
      (snd (lifespan_startup (world_with None empty_database [])))
    = (Return (response (clock_jan15 0) (clock_jan15 1) msg_saved), w1).
Proof.
  assert (Hok : forall j, j < 10 ->
            fault j (world_with None empty_database []) = None).
  { intros j Hj.
    destruct j as [|[|[|[|[|[|[|[|[|[|j]]]]]]]]]]; [reflexivity .. | lia]. }
  destruct (startup_upload_get_end_to_end receipt_jpg
              (world_with None empty_database [])
              eq_refl empty_database_consistent eq_refl Hok)
    as (w1 & _ & _ & Hrun & _).
  exists w1. exact Hrun.
Defined.
